(** * Shadowserver toolkit: ingestion, recurrence and compaction

    A shallow embedding of [shadowserver_files_processor.py],
    [script_V3.0.py] and [deduplicate_records.py].  Data frames are lists of
    rows, a row is a record with one field per destination column, and a
    cell is what pandas keeps in an object column: a missing value, a text,
    an integer or a parsed time.  The pandas entry points the scripts call
    on text ([to_numeric], [to_datetime], the rendering done by [to_csv] and
    the sorting kernel behind [sort_values]) form the interface [Pandas]. *)

From Stdlib Require Import ZArith String Ascii.
From Stdlib Require DecimalString DecimalZ DecimalPos.
From stdpp Require Import base decidable option list strings gmap sorting.

Local Open Scope Z_scope.

(** ** Cells and pandas comparisons *)

Inductive cell :=
  | NaN                 (* NaN, None and NaT: a missing value *)
  | Str (s : string)    (* a text of an object column *)
  | Int (n : Z)         (* an integer, after [astype(int)] *)
  | Time (t : Z).       (* a parsed timestamp, after [to_datetime] *)

Global Instance cell_eq_dec : EqDecision cell.
Proof. solve_decision. Defined.

Definition isna (c : cell) : bool :=
  match c with NaN => true | _ => false end.

Definition notna (c : cell) : bool := negb (isna c).

(** [series == scalar], element by element: a missing value on either side
    compares unequal, also to another missing value. *)
Definition cell_eq (stored new : cell) : bool :=
  match stored, new with
  | NaN, _ | _, NaN => false
  | _, _ => bool_decide (stored = new)
  end.

(** [series != scalar]: the negation, so a missing value differs from
    everything, also from another missing value. *)
Definition cell_ne (stored new : cell) : bool := negb (cell_eq stored new).

(** ** Python string methods, on byte strings *)

Definition is_space (a : ascii) : bool :=
  match a with
  | "009" | "010" | "011" | "012" | "013"
  | "028" | "029" | "030" | "031" | " " => true
  | _ => false
  end%char.

Fixpoint lstrip (s : string) : string :=
  match s with
  | String a s' => if is_space a then lstrip s' else s
  | EmptyString => EmptyString
  end.

Definition strip (s : string) : string :=
  String.rev (lstrip (String.rev (lstrip s))).

Definition lower_ascii (a : ascii) : ascii :=
  let n := nat_of_ascii a in
  if (Nat.leb 65 n && Nat.leb n 90)%bool then ascii_of_nat (n + 32) else a.

Fixpoint lower (s : string) : string :=
  match s with
  | String a s' => String (lower_ascii a) (lower s')
  | EmptyString => EmptyString
  end.

(** [s.replace('_', ' ')] *)
Fixpoint replace_underscore (s : string) : string :=
  match s with
  | String a s' =>
      String (if Ascii.eqb a "_" then " "%char else a) (replace_underscore s')
  | EmptyString => EmptyString
  end.

Fixpoint endswith_rev (suffix_rev s_rev : string) : bool :=
  match suffix_rev, s_rev with
  | EmptyString, _ => true
  | String a p, String b s => Ascii.eqb a b && endswith_rev p s
  | String _ _, EmptyString => false
  end.

Definition endswith (s suffix : string) : bool :=
  endswith_rev (String.rev suffix) (String.rev s).

(** ** The regular expression [scan_([^-.]+)] *)

Definition is_sep (a : ascii) : bool :=
  (Ascii.eqb a "-" || Ascii.eqb a ".")%bool.

(** The longest prefix without [-] and [.]: what the greedy [[^-.]+]
    consumes. *)
Fixpoint token (s : string) : string :=
  match s with
  | String a s' => if is_sep a then EmptyString else String a (token s')
  | EmptyString => EmptyString
  end.

Fixpoint drop_prefix (p s : string) : option string :=
  match p, s with
  | EmptyString, _ => Some s
  | String a p', String b s' =>
      if Ascii.eqb a b then drop_prefix p' s' else None
  | String _ _, EmptyString => None
  end.

(** The pattern anchored at the start of [s]: group 1 of the match. *)
Definition match_scan_at (s : string) : option string :=
  match drop_prefix "scan_" s with
  | Some rest =>
      match token rest with
      | EmptyString => None
      | g => Some g
      end
  | None => None
  end.

(** [re.search(r'scan_([^-.]+)', s)]: the leftmost match, its group 1. *)
Fixpoint re_search_scan (s : string) : option string :=
  match match_scan_at s with
  | Some g => Some g
  | None =>
      match s with
      | String _ s' => re_search_scan s'
      | EmptyString => None
      end
  end.

Definition clean_label (g : string) : string :=
  lower (strip (replace_underscore g)).

(** [shadowserver_files_processor.py], lines 39-43: [None] without marker. *)
Module Processor_tagger.
Definition extract_issue_from_filename (filename : string) : option string :=
  match re_search_scan filename with
  | Some g => Some (clean_label g)
  | None => None
  end.
End Processor_tagger.

(** [script_V3.0.py], lines 142-147: a sentinel without marker. *)
Module V3_tagger.
Definition extract_issue_from_filename (filename : string) : string :=
  match re_search_scan filename with
  | Some g => clean_label g
  | None => "unknown issue"
  end.
End V3_tagger.

(** ** Rows of the destination table *)

(** One field per entry of [destination_columns], in that order. *)
Record row (C : Type) := Row {
  Timestamp : C;
  Severity : C;
  IP : C;
  Protocol : C;
  Port : C;
  State : C;
  Asset_Name_Hostname : C;
  Asset_Type : C;
  Region : C;
  City : C;
  Issue : C;
  Description : C;
  Recurring_Issue : C;
  Client_Awareness_Training_Needed : C;
  Advisory_Sent : C;
  Date_Advisory_Sent : C;
  Issue_Resolved : C;
  Date_Issue_Resolved : C;
  Contact_Person : C;
  Contact_Email : C
}.

Arguments Row {C}.
Arguments Timestamp {C}.
Arguments Severity {C}.
Arguments IP {C}.
Arguments Protocol {C}.
Arguments Port {C}.
Arguments State {C}.
Arguments Asset_Name_Hostname {C}.
Arguments Asset_Type {C}.
Arguments Region {C}.
Arguments City {C}.
Arguments Issue {C}.
Arguments Description {C}.
Arguments Recurring_Issue {C}.
Arguments Client_Awareness_Training_Needed {C}.
Arguments Advisory_Sent {C}.
Arguments Date_Advisory_Sent {C}.
Arguments Issue_Resolved {C}.
Arguments Date_Issue_Resolved {C}.
Arguments Contact_Person {C}.
Arguments Contact_Email {C}.

Global Instance row_eq_dec {C} `{EqDecision C} : EqDecision (row C).
Proof. solve_decision. Defined.

Definition destination_columns : list string :=
  [ "Timestamp"; "Severity"; "IP"; "Protocol"; "Port"; "State";
    "Asset Name/Hostname"; "Asset Type"; "Region"; "City"; "Issue";
    "Description"; "Recurring Issue"; "Client Awareness Training Needed";
    "Advisory Sent"; "Date Advisory Sent"; "Issue Resolved";
    "Date Issue Resolved"; "Contact Person"; "Contact Email" ].

(** The row whose cell in column [d] is [f d]. *)
Definition row_of_columns {C} (f : string → C) : row C :=
  Row (f "Timestamp") (f "Severity") (f "IP") (f "Protocol") (f "Port")
      (f "State") (f "Asset Name/Hostname") (f "Asset Type") (f "Region")
      (f "City") (f "Issue") (f "Description") (f "Recurring Issue")
      (f "Client Awareness Training Needed") (f "Advisory Sent")
      (f "Date Advisory Sent") (f "Issue Resolved") (f "Date Issue Resolved")
      (f "Contact Person") (f "Contact Email").

Definition map_row {C D} (f : C → D) (r : row C) : row D :=
  Row (f (Timestamp r)) (f (Severity r)) (f (IP r)) (f (Protocol r))
      (f (Port r)) (f (State r)) (f (Asset_Name_Hostname r))
      (f (Asset_Type r)) (f (Region r)) (f (City r)) (f (Issue r))
      (f (Description r)) (f (Recurring_Issue r))
      (f (Client_Awareness_Training_Needed r)) (f (Advisory_Sent r))
      (f (Date_Advisory_Sent r)) (f (Issue_Resolved r))
      (f (Date_Issue_Resolved r)) (f (Contact_Person r)) (f (Contact_Email r)).

(** Column assignments [df['col'] = ...], one row at a time. *)
Definition set_Timestamp {C} (v : C) (r : row C) : row C :=
  Row v (Severity r) (IP r) (Protocol r) (Port r) (State r)
      (Asset_Name_Hostname r) (Asset_Type r) (Region r) (City r) (Issue r)
      (Description r) (Recurring_Issue r)
      (Client_Awareness_Training_Needed r) (Advisory_Sent r)
      (Date_Advisory_Sent r) (Issue_Resolved r) (Date_Issue_Resolved r)
      (Contact_Person r) (Contact_Email r).

Definition set_State {C} (v : C) (r : row C) : row C :=
  Row (Timestamp r) (Severity r) (IP r) (Protocol r) (Port r) v
      (Asset_Name_Hostname r) (Asset_Type r) (Region r) (City r) (Issue r)
      (Description r) (Recurring_Issue r)
      (Client_Awareness_Training_Needed r) (Advisory_Sent r)
      (Date_Advisory_Sent r) (Issue_Resolved r) (Date_Issue_Resolved r)
      (Contact_Person r) (Contact_Email r).

Definition set_Issue {C} (v : C) (r : row C) : row C :=
  Row (Timestamp r) (Severity r) (IP r) (Protocol r) (Port r) (State r)
      (Asset_Name_Hostname r) (Asset_Type r) (Region r) (City r) v
      (Description r) (Recurring_Issue r)
      (Client_Awareness_Training_Needed r) (Advisory_Sent r)
      (Date_Advisory_Sent r) (Issue_Resolved r) (Date_Issue_Resolved r)
      (Contact_Person r) (Contact_Email r).

Definition set_Recurring_Issue {C} (v : C) (r : row C) : row C :=
  Row (Timestamp r) (Severity r) (IP r) (Protocol r) (Port r) (State r)
      (Asset_Name_Hostname r) (Asset_Type r) (Region r) (City r) (Issue r)
      (Description r) v
      (Client_Awareness_Training_Needed r) (Advisory_Sent r)
      (Date_Advisory_Sent r) (Issue_Resolved r) (Date_Issue_Resolved r)
      (Contact_Person r) (Contact_Email r).

(** A data frame with the destination columns. *)
Abbreviation frame := (list (row cell)).

(** The text of a destination file, one row of fields per record. *)
Abbreviation csv := (list (row string)).

(** ** The pandas interface *)

Class Pandas := {
  (** the integer [pd.to_numeric(..., errors='coerce')] followed by
      [astype(int)] reads in a text, [None] where the text is not a number *)
  to_numeric_text : string → option Z;
  (** the time [pd.to_datetime(..., errors='coerce')] reads in a text *)
  to_datetime_text : string → option Z;
  (** how [to_csv] writes an integer and a time *)
  render_int : Z → string;
  render_datetime : Z → string;
  (** the [kind='quicksort'] kernel of [sort_values]: ascending by key *)
  quicksort : ∀ A : Type, (A → Z) → list A → list A
}.

(** What the kernel promises: the same elements, in ascending order of the
    key.  The order of elements with equal keys is not part of it. *)
Class SortLaws (P : Pandas) : Prop := {
  quicksort_perm : ∀ A (key : A → Z) l, quicksort A key l ≡ₚ l;
  quicksort_sorted : ∀ A (key : A → Z) l,
    Sorted (λ x y, key x ≤ key y) (quicksort A key l)
}.

(** [read_csv]'s default markers of a missing value. *)
Definition na_values : list string :=
  [ ""; "#N/A"; "#N/A N/A"; "#NA"; "-1.#IND"; "-1.#QNAN"; "-NaN"; "-nan";
    "1.#IND"; "1.#QNAN"; "<NA>"; "N/A"; "NA"; "NULL"; "NaN"; "None"; "n/a";
    "nan"; "null" ].

(** [pd.read_csv(..., dtype=str)] on one field. *)
Definition read_csv_cell (s : string) : cell :=
  if bool_decide (s ∈ na_values) then NaN else Str s.

Global Arguments read_csv_cell : simpl never.

(** What is written is read back: an integer and a time that was read
    from a text as the number and the time they are, and never as a missing
    value. *)
Class RoundTripLaws (P : Pandas) : Prop := {
  numeric_render : ∀ n, to_numeric_text (render_int n) = Some n;
  render_int_notna : ∀ n, render_int n ∉ na_values;
  datetime_render : ∀ s t,
    to_datetime_text s = Some t → to_datetime_text (render_datetime t) = Some t;
  render_datetime_notna : ∀ s t,
    to_datetime_text s = Some t → render_datetime t ∉ na_values
}.

Section pandas.
Context `{P : Pandas}.

(** [to_csv] on one cell. *)
Definition to_csv_cell (c : cell) : string :=
  match c with
  | NaN => ""
  | Str s => s
  | Int n => render_int n
  | Time t => render_datetime t
  end.

Definition read_csv (f : csv) : frame := map_row read_csv_cell <$> f.
Definition to_csv (df : frame) : csv := map_row to_csv_cell <$> df.

(** [x.str.strip()] on one cell of an object column. *)
Definition strip_cell (c : cell) : cell :=
  match c with Str s => Str (strip s) | _ => c end.

(** [pd.to_numeric(col, errors='coerce')] on one cell; the column holds
    texts read from the file and integers set by earlier files. *)
Definition to_numeric (c : cell) : cell :=
  match c with
  | Int n => Int n
  | Str s => match to_numeric_text s with Some n => Int n | None => NaN end
  | _ => NaN
  end.

(** [.fillna(0)] *)
Definition fillna0 (c : cell) : cell :=
  match c with NaN => Int 0 | _ => c end.

(** [pd.to_numeric(col, errors='coerce').fillna(0).astype(int)] *)
Definition coerce_recurring (c : cell) : cell := fillna0 (to_numeric c).

Definition coerce_recurring_column (df : frame) : frame :=
  (λ r, set_Recurring_Issue (coerce_recurring (Recurring_Issue r)) r) <$> df.

(** The integer of a coerced cell. *)
Definition int_of (c : cell) : Z :=
  match c with Int n => n | _ => 0 end.

(** [pd.to_datetime(col, errors='coerce')] on one cell. *)
Definition to_datetime (c : cell) : cell :=
  match c with
  | Time t => Time t
  | Str s => match to_datetime_text s with Some t => Time t | None => NaN end
  | _ => NaN
  end.

Definition to_datetime_column (df : frame) : frame :=
  (λ r, set_Timestamp (to_datetime (Timestamp r)) r) <$> df.

Definition time_of (c : cell) : Z :=
  match c with Time t => t | _ => 0 end.

(** [df.sort_values(by='Timestamp', ascending=False, na_position='last')]
    with the default [kind]: pandas sorts the rows that have a time, for a
    descending order by reversing them before and after the ascending
    kernel, and puts the rows without a time behind them. *)
Definition sort_values_desc (df : frame) : frame :=
  let non_nans := filter (λ r, notna (Timestamp r)) df in
  let nans := filter (λ r, isna (Timestamp r)) df in
  reverse (quicksort _ (λ r, time_of (Timestamp r)) (reverse non_nans))
    ++ nans.
End pandas.

(** ** Source files and the files of a run *)

(** A source table as [pd.read_csv(file_path, dtype=str)] returns it: the
    header and, per row, the text of each column that has one. *)
Record src_frame := {
  src_columns : list string;
  src_rows : list (gmap string string)
}.

(** The store and the processed-files log on disk; [None] is a file that
    does not exist (for the store also one that cannot be read).  The log is
    kept as its lines, one file name each. *)
Record world := {
  store_file : option csv;
  ledger_file : option (list string)
}.

(** Whether the writes of a run go through. *)
Record io_outcome := {
  store_write_ok : bool;
  ledger_write_ok : bool
}.

Definition store_rows (w : world) : csv := default [] (store_file w).
Definition ledger_lines (w : world) : list string := default [] (ledger_file w).

(** [matches['Recurring Issue'].max()] *)
Definition series_max (l : list Z) : option Z :=
  match l with
  | [] => None
  | x :: l' => Some (foldr Z.max x l')
  end.

Module Processor.
Section processor.
Context `{P : Pandas}.

Definition column_map : list (string * string) :=
  [ ("timestamp", "Timestamp"); ("severity", "Severity"); ("ip", "IP");
    ("protocol", "Protocol"); ("port", "Port");
    ("hostname", "Asset Name/Hostname"); ("region", "Region");
    ("city", "City") ].

Definition key_columns : list string :=
  [ "Severity"; "IP"; "Protocol"; "Port"; "State"; "Issue" ].

(** [[col for col in column_map if col in df_src.columns]] *)
Definition valid_cols (df_src : src_frame) : list string :=
  filter (λ col, col ∈ src_columns df_src) (column_map.*1).

(** A cell of [df_src] after [x.str.strip()]. *)
Definition src_cell (r : gmap string string) (col : string) : cell :=
  match r !! col with
  | Some s => Str (strip s)
  | None => NaN
  end.

(** The source column renamed to destination column [d]. *)
Definition source_column (d : string) : option string :=
  (λ x, x.2.1) <$> list_find (λ kv, kv.2 = d) column_map.

(** [temp.dropna(how='all')] keeps a row with a value in some column. *)
Definition has_value (df_src : src_frame) (r : gmap string string) : bool :=
  existsb (λ col, notna (src_cell r col)) (valid_cols df_src).

(** A cell of [temp] once the missing destination columns are added. *)
Definition temp_cell (df_src : src_frame) (r : gmap string string)
    (d : string) : cell :=
  match source_column d with
  | Some col =>
      if bool_decide (col ∈ valid_cols df_src) then src_cell r col
      else Str ""
  | None => Str ""
  end.

(** Lines 101-118: [temp], for the rows that survive [dropna]. *)
Definition normalize (df_src : src_frame) (issue : cell) : frame :=
  (λ r, set_Recurring_Issue (Int 0)
          (set_Issue issue
             (set_State (Str "open")
                (row_of_columns (temp_cell df_src r)))))
    <$> filter (λ r, has_value df_src r) (src_rows df_src).

(** Lines 128-136: the mask that selects [matches]. *)
Definition is_match (new_row stored : row cell) : bool :=
  cell_eq (Severity stored) (Severity new_row)
  && cell_eq (IP stored) (IP new_row)
  && cell_eq (Protocol stored) (Protocol new_row)
  && cell_eq (Port stored) (Port new_row)
  && cell_eq (State stored) (State new_row)
  && cell_eq (Issue stored) (Issue new_row)
  && cell_ne (Timestamp stored) (Timestamp new_row).

Definition matches (df_dest : frame) (new_row : row cell) : frame :=
  filter (λ stored, is_match new_row stored) df_dest.

(** Lines 137-138, for one row of [temp]. *)
Definition resolve_row (df_dest : frame) (new_row : row cell) : row cell :=
  match series_max ((λ m, int_of (Recurring_Issue m)) <$> matches df_dest new_row) with
  | Some m => set_Recurring_Issue (Int (m + 1)) new_row
  | None => new_row
  end.

Definition issue_cell (filename : string) : cell :=
  match Processor_tagger.extract_issue_from_filename filename with
  | Some label => Str label
  | None => NaN
  end.

Record loop_state := {
  df_dest : frame;
  newly_processed : list string
}.

(** Lines 74-144: one iteration of the loop over [os.listdir(source_dir)];
    [contents] is [None] when reading the file raises. *)
Definition process_file (processed_files : gset string) (st : loop_state)
    (entry : string * option src_frame) : loop_state :=
  let '(filename, contents) := entry in
  if negb (endswith filename ".csv" || endswith filename ".xlsx") then st
  else if bool_decide (filename ∈ processed_files) then st
  else
    match contents with
    | None => st
    | Some df_src =>
        if bool_decide (valid_cols df_src = []) then st
        else
          let temp := normalize df_src (issue_cell filename) in
          if bool_decide (temp = []) then st
          else
            let dest := coerce_recurring_column (df_dest st) in
            let temp := resolve_row dest <$> temp in
            {| df_dest := temp ++ dest;
               newly_processed := newly_processed st ++ [filename] |}
    end.

(** Lines 45-68: the log and the destination as loaded. *)
Definition load_processed_files (w : world) : gset string :=
  list_to_set (ledger_lines w).

Definition load_destination (w : world) : frame :=
  map_row strip_cell <$> read_csv (store_rows w).

Definition run_loop (w : world) (listing : list (string * option src_frame))
    : loop_state :=
  foldl (process_file (load_processed_files w))
    {| df_dest := load_destination w; newly_processed := [] |} listing.

(** Lines 146-148: what the run hands to [to_csv]. *)
Definition final_frame (w : world) (listing : list (string * option src_frame))
    : frame :=
  sort_values_desc (to_datetime_column (df_dest (run_loop w listing))).

(** Lines 150-165: a failed save is reported and the log is written all
    the same. *)
Definition ingest (w : world) (listing : list (string * option src_frame))
    (io : io_outcome) : world :=
  let st := run_loop w listing in
  {| store_file :=
       if store_write_ok io then Some (to_csv (final_frame w listing))
       else store_file w;
     ledger_file :=
       match newly_processed st with
       | [] => ledger_file w
       | _ =>
           if ledger_write_ok io
           then Some (ledger_lines w ++ newly_processed st)
           else ledger_file w
       end |}.
End processor.
End Processor.

(** ** Stable sorting on several columns *)

(** [sort_values] on a list of columns orders the rows lexicographically and
    keeps rows that compare equal in their order: an insertion sort. *)
Fixpoint insert_sorted {A} (leb : A → A → bool) (x : A) (l : list A) : list A :=
  match l with
  | [] => [x]
  | y :: l' => if leb x y then x :: l else y :: insert_sorted leb x l'
  end.

Definition sort_stable {A} (leb : A → A → bool) (l : list A) : list A :=
  foldr (insert_sorted leb) [] l.

(** The values of the five key columns of a row. *)
Abbreviation key5 := (string * (string * (string * (string * string))))%type.

(** Lexicographic order on a pair: the first components decide unless they
    are equal. *)
Definition lex_leb {A B} `{EqDecision A} (leA : A → A → bool)
    (leB : B → B → bool) (x y : A * B) : bool :=
  if bool_decide (x.1 = y.1) then leB x.2 y.2 else leA x.1 y.1.

(** A total preorder given as a boolean test, and an antisymmetric one. *)
Class BoolOrder {A} (le : A → A → bool) : Prop := {
  bool_order_trans : ∀ x y z, le x y = true → le y z = true → le x z = true;
  bool_order_total : ∀ x y, le x y = false → le y x = true
}.

Class BoolAntiSymm {A} (le : A → A → bool) : Prop :=
  bool_order_antisymm : ∀ x y, le x y = true → le y x = true → x = y.

Module Dedup.
Section dedup.
Context `{P : Pandas}.

Definition key_columns : list string :=
  [ "Severity"; "IP"; "Protocol"; "Port"; "State" ].

(** [df.dropna(subset=key_columns + ['Timestamp'])] keeps these rows. *)
Definition keyable (r : row cell) : bool :=
  notna (Severity r) && notna (IP r) && notna (Protocol r)
  && notna (Port r) && notna (State r) && notna (Timestamp r).

(** Lines 25-35: [df] after the conversions and the in-place [dropna]. *)
Definition prepare (f : csv) : frame :=
  filter (λ r, keyable r)
    (coerce_recurring_column (to_datetime_column (read_csv f))).

(** The text of a key cell; after [dropna] every key cell is a text. *)
Definition text_of (c : cell) : string :=
  match c with Str s => s | _ => "" end.

(** The key of a row's group: the values of the five key columns. *)
Definition group_key (r : row cell) : key5 :=
  (text_of (Severity r), (text_of (IP r), (text_of (Protocol r),
    (text_of (Port r), text_of (State r))))).

Definition key_leb : key5 → key5 → bool :=
  lex_leb String.leb (lex_leb String.leb (lex_leb String.leb
    (lex_leb String.leb String.leb))).

(** Line 41: key columns ascending, then [Timestamp] descending. *)
Definition row_leb (r1 r2 : row cell) : bool :=
  lex_leb key_leb (λ t1 t2, t2 <=? t1)
    (group_key r1, time_of (Timestamp r1))
    (group_key r2, time_of (Timestamp r2)).

Definition df_sorted (df : frame) : frame := sort_stable row_leb df.

(** Line 44: the groups in ascending key order, each with its rows in
    the order of the frame. *)
Definition groupby (df : frame) : list (key5 * frame) :=
  (λ k, (k, filter (λ r, group_key r = k) df))
    <$> sort_stable key_leb (remove_dups (group_key <$> df)).

(** Lines 50-61: the body of the loop over the groups. *)
Definition collapse (group : frame) : option (row cell) :=
  match group with
  | latest_record :: others =>
      let num_duplicates := Z.of_nat (length group) - 1 in
      Some (if 0 <? num_duplicates
            then set_Recurring_Issue
                   (Int (int_of (Recurring_Issue latest_record) + num_duplicates))
                   latest_record
            else latest_record)
  | [] => None
  end.

Definition final_records (df : frame) : frame :=
  omap (λ g, collapse g.2) (groupby (df_sorted df)).

(** What a successful run writes and prints. *)
Record report := {
  written : csv;
  removed : Z;
  saved : nat
}.

(** Lines 5-79.  [source_file] is [None] when it cannot be read; without a
    record to keep the function returns before it writes. *)
Definition deduplicate_and_update (source_file : option csv)
    (write_ok : bool) : option report :=
  match source_file with
  | None => None
  | Some f =>
      let df := prepare f in
      if bool_decide (final_records df = []) then None
      else
        let df_final := sort_values_desc (final_records df) in
        if write_ok
        then Some {| written := to_csv df_final;
                     removed := Z.of_nat (length df) - Z.of_nat (length df_final);
                     saved := length df_final |}
        else None
  end.
End dedup.
End Dedup.

(** ** [script_V3.0.py], the script at module level (lines 1-132) *)

(** [s.split(sep)[-1]]: the text behind the last [sep], all of [s] without
    one.  [after_last] looks at every position, which is what [split] does
    for a separator that cannot overlap itself, as [-scan_]. *)
Fixpoint after_last (sep s : string) : option string :=
  match s with
  | EmptyString => None
  | String _ s' =>
      match after_last sep s' with
      | Some r => Some r
      | None => drop_prefix sep s
      end
  end.

Definition split_last (sep s : string) : string :=
  default s (after_last sep s).

(** [s.split('-')[0]] *)
Fixpoint split_dash_first (s : string) : string :=
  match s with
  | String a s' =>
      if Ascii.eqb a "-" then EmptyString else String a (split_dash_first s')
  | EmptyString => EmptyString
  end.

Module V3.
Section v3.
Context `{P : Pandas}.

(** Line 92 *)
Definition issue_of_file (file : string) : string :=
  lower (strip (replace_underscore
    (split_dash_first (split_last "-scan_" file)))).

(** Lines 78-79: a destination column of [df_filtered] comes from the
    source column that is renamed to it or, without one, from a source
    column that already bears its name. *)
Definition filtered_column (df : src_frame) (d : string) : option string :=
  match Processor.source_column d with
  | Some col =>
      if bool_decide (col ∈ src_columns df) then Some col
      else if bool_decide (d ∈ src_columns df) then Some d
      else None
  | None => None
  end.

Definition filtered_columns (df : src_frame) : list string :=
  omap (filtered_column df) (Processor.column_map.*2).

Definition filtered_cell (df : src_frame) (r : gmap string string)
    (d : string) : cell :=
  match filtered_column df d with
  | Some col => match r !! col with Some s => Str s | None => NaN end
  | None => Str ""
  end.

(** Lines 85-96 *)
Definition normalize (df : src_frame) (file : string) : frame :=
  (λ r, set_Recurring_Issue (Int 0)
          (set_Issue (Str (issue_of_file file))
             (set_State (Str "open")
                (row_of_columns (filtered_cell df r)))))
    <$> src_rows df.

(** The destination frame and the lines of the log file, which this
    script appends to inside the loop. *)
Record loop_state := {
  df_dest : frame;
  processed_log : option (list string)
}.

(** Lines 54-124: one iteration; [None] is an exception that ends the
    script, which only the unguarded append to the log can raise here. *)
Definition process_file (ledger_ok : bool) (processed_files : gset string)
    (st : loop_state) (entry : string * option src_frame)
    : option loop_state :=
  let '(file, contents) := entry in
  if negb (endswith file ".csv" || endswith file ".xlsx") then Some st
  else if bool_decide (file ∈ processed_files) then Some st
  else
    match contents with
    | None => Some st
    | Some df =>
        if bool_decide (filtered_columns df = [] ∨ src_rows df = [])
        then Some st
        else
          let dest := coerce_recurring_column (df_dest st) in
          let df_filtered :=
            Processor.resolve_row dest <$> normalize df file in
          if ledger_ok
          then Some {| df_dest := df_filtered ++ dest;
                       processed_log :=
                         Some (default [] (processed_log st) ++ [file]) |}
          else None
    end.

(** Lines 47-51 *)
Definition load_processed_files (w : world) : gset string :=
  list_to_set (strip <$> ledger_lines w).

Definition run_loop (w : world) (listing : list (string * option src_frame))
    (io : io_outcome) : option loop_state :=
  foldl (λ acc entry,
           st ← acc;
           process_file (ledger_write_ok io) (load_processed_files w) st entry)
    (Some {| df_dest := read_csv (store_rows w);
             processed_log := ledger_file w |})
    listing.

(** Lines 126-131: the save comes last and is not guarded.  When an
    append to the log raises nothing was written before it, when the save
    raises the log already has its new lines. *)
Definition ingest (w : world) (listing : list (string * option src_frame))
    (io : io_outcome) : world :=
  match run_loop w listing io with
  | None => w
  | Some st =>
      {| store_file :=
           if store_write_ok io
           then Some (to_csv (sort_values_desc (to_datetime_column (df_dest st))))
           else store_file w;
         ledger_file := processed_log st |}
  end.
End v3.
End V3.

(** ** Two implementations of the interface *)

(** Numbers as decimal integers; a text that is not one is not a number. *)
Definition decimal_text (n : Z) : string :=
  DecimalString.NilZero.string_of_int (Z.to_int n).

Definition decimal_parse (s : string) : option Z :=
  Z.of_int <$> DecimalString.NilZero.int_of_string s.

(** Times in the form [YYYY-MM-DD HH:MM:SS] that [to_csv] writes.  The time
    of such a text is the number that its fourteen digits spell, which
    orders the texts as the calendar does; any other text is not a time. *)
Definition timestamp_digits (s : string) : option string :=
  match s with
  | String y1 (String y2 (String y3 (String y4 (String c1
    (String m1 (String m2 (String c2
    (String d1 (String d2 (String c3
    (String h1 (String h2 (String c4
    (String n1 (String n2 (String c5
    (String s1 (String s2 EmptyString)))))))))))))))))) =>
      if (Ascii.eqb c1 "-" && Ascii.eqb c2 "-" && Ascii.eqb c3 " "
          && Ascii.eqb c4 ":" && Ascii.eqb c5 ":")%bool
      then Some (String y1 (String y2 (String y3 (String y4
                 (String m1 (String m2 (String d1 (String d2
                 (String h1 (String h2 (String n1 (String n2
                 (String s1 (String s2 EmptyString))))))))))))))
      else None
  | _ => None
  end.

Definition timestamp_of_digits (d : string) : option string :=
  match d with
  | String y1 (String y2 (String y3 (String y4
    (String m1 (String m2 (String d1 (String d2
    (String h1 (String h2 (String n1 (String n2
    (String s1 (String s2 EmptyString))))))))))))) =>
      Some (String y1 (String y2 (String y3 (String y4 (String "-"
           (String m1 (String m2 (String "-"
           (String d1 (String d2 (String " "
           (String h1 (String h2 (String ":"
           (String n1 (String n2 (String ":"
           (String s1 (String s2 EmptyString)))))))))))))))))))
  | _ => None
  end.

Definition timestamp_parse (s : string) : option Z :=
  d ← timestamp_digits s;
  t ← decimal_parse d;
  if bool_decide (decimal_text t = d) then Some t else None.

Definition timestamp_text (t : Z) : string :=
  default "" (timestamp_of_digits (decimal_text t)).

(** A kernel that keeps equal keys in their order, and one that does not. *)
Definition insertion_kernel (A : Type) (key : A → Z) (l : list A) : list A :=
  sort_stable (λ x y, key x <=? key y) l.


Definition pandas_stable : Pandas :=
  {| to_numeric_text := decimal_parse;
     to_datetime_text := timestamp_parse;
     render_int := decimal_text;
     render_datetime := timestamp_text;
     quicksort := insertion_kernel |}.


(** ** The properties, in the words of the specification *)

(** The marker [scan_<token>]: [scan_] followed by a character other than
    [-] and [.]. *)
Definition has_marker (filename : string) : Prop :=
  ∃ pre c rest,
    filename = pre +:+ "scan_" +:+ String c rest ∧ is_sep c = false.



(** A source row has a value in a column that [column_map] knows. *)
Definition has_mapped_value (df_src : src_frame) (r : gmap string string) : Prop :=
  ∃ col, col ∈ Processor.valid_cols df_src ∧ is_Some (r !! col).

(** The row of [temp] that a source row becomes. *)
Definition stamped (df_src : src_frame) (issue : cell)
    (r : gmap string string) : row cell :=
  set_Recurring_Issue (Int 0)
    (set_Issue issue
       (set_State (Str "open")
          (row_of_columns (Processor.temp_cell df_src r)))).

(** The files of a listing that a run folds into the destination: those
    that no check of the loop skips. *)
Definition folded (processed_files : gset string)
    (entry : string * option src_frame) : bool :=
  (endswith entry.1 ".csv" || endswith entry.1 ".xlsx")
  && negb (bool_decide (entry.1 ∈ processed_files))
  && match entry.2 with
     | Some df_src =>
         negb (bool_decide (Processor.valid_cols df_src = []))
         && negb (bool_decide
                    (Processor.normalize df_src (Processor.issue_cell entry.1) = []))
     | None => false
     end.

Definition folded_V3 (processed_files : gset string)
    (entry : string * option src_frame) : bool :=
  (endswith entry.1 ".csv" || endswith entry.1 ".xlsx")
  && negb (bool_decide (entry.1 ∈ processed_files))
  && match entry.2 with
     | Some df =>
         negb (bool_decide (V3.filtered_columns df = [] ∨ src_rows df = []))
     | None => false
     end.



(** Two rows agree on the five key columns of compaction. *)
Definition same_group (r1 r2 : row cell) : Prop :=
  Severity r1 = Severity r2 ∧ IP r1 = IP r2 ∧ Protocol r1 = Protocol r2
  ∧ Port r1 = Port r2 ∧ State r1 = State r2.

Global Instance same_group_dec r1 r2 : Decision (same_group r1 r2).
Proof. unfold same_group. apply _. Defined.

(** The record kept for a group: the latest one, its Recurring Issue raised
    by the number of the other records of the group. *)
Definition kept_record (group_size : nat) (latest_record : row cell) : row cell :=
  set_Recurring_Issue
    (Int (int_of (Recurring_Issue latest_record) + (Z.of_nat group_size - 1)))
    latest_record.

Section compaction_words.
Context `{P : Pandas}.

(** The store as compaction reads and converts it, before the filter. *)
Definition converted (f : csv) : frame :=
  coerce_recurring_column (to_datetime_column (read_csv f)).

(** The records that the filter of compaction excludes. *)
Definition excluded (f : csv) : frame :=
  filter (λ r, ¬ Dedup.keyable r) (converted f).

(** The frame that compaction hands to [to_csv]. *)
Definition compacted (f : csv) : frame :=
  sort_values_desc (Dedup.final_records (Dedup.prepare f)).

(** What a kept record is, in terms of the converted store. *)
Definition kept_from (f : csv) (t latest : row cell) : Prop :=
  latest ∈ converted f ∧ Dedup.keyable latest = true
  ∧ (∀ r, r ∈ converted f → Dedup.keyable r = true → same_group r latest →
          time_of (Timestamp r) ≤ time_of (Timestamp latest))
  ∧ t = kept_record
          (length (filter (λ r, same_group r latest) (Dedup.prepare f)))
          latest.

(** A row as compaction converts it from the fields of the file. *)
Definition reconvert (r0 : row string) : row cell :=
  set_Recurring_Issue
    (coerce_recurring (read_csv_cell (Recurring_Issue r0)))
    (set_Timestamp (to_datetime (read_csv_cell (Timestamp r0)))
       (map_row read_csv_cell r0)).
End compaction_words.

(** A cell that holds a text. *)
Definition is_text (c : cell) : Prop := ∃ s, c = Str s.

(** The keys of the groups of a frame in ascending order, and the rows of
    one group, as [groupby] yields them. *)
Definition keys_of (df : frame) : list key5 :=
  sort_stable Dedup.key_leb (remove_dups (Dedup.group_key <$> Dedup.df_sorted df)).

Definition group_of (df : frame) (k : key5) : frame :=
  filter (λ r, Dedup.group_key r = k) (Dedup.df_sorted df).

(** ** Worlds and files used as examples *)

Definition empty_world : world :=
  {| store_file := None; ledger_file := None |}.

Definition io_ok : io_outcome :=
  {| store_write_ok := true; ledger_write_ok := true |}.


Definition scan_columns : list string :=
  [ "timestamp"; "severity"; "ip"; "protocol"; "port" ].

(** One finding of a scan, at time [ts]. *)
Definition scan_row (ts : string) : gmap string string :=
  {[ "timestamp" := ts; "severity" := "High"; "ip" := "10.0.0.1";
     "protocol" := "tcp"; "port" := "443" ]}.

Definition scan_at (ts : string) : src_frame :=
  {| src_columns := scan_columns; src_rows := [ scan_row ts ] |}.

(** A scan whose only row has no ip. *)
Definition scan_without_ip : src_frame :=
  {| src_columns := scan_columns;
     src_rows :=
       [ {[ "timestamp" := "2024-01-01 00:00:00"; "severity" := "High";
            "protocol" := "tcp"; "port" := "443" ]} ] |}.

(** A stored record with the workflow columns empty. *)
Definition finding (ts sev ip proto port issue recurring : string) : row string :=
  row_of_columns (λ d,
    if bool_decide (d = "Timestamp") then ts
    else if bool_decide (d = "Severity") then sev
    else if bool_decide (d = "IP") then ip
    else if bool_decide (d = "Protocol") then proto
    else if bool_decide (d = "Port") then port
    else if bool_decide (d = "State") then "open"
    else if bool_decide (d = "Issue") then issue
    else if bool_decide (d = "Recurring Issue") then recurring
    else "").

(** A store with two records of one time. *)
Definition tied_world : world :=
  {| store_file :=
       Some [ finding "2024-01-01 00:00:00" "High" "10.0.0.1" "tcp" "443"
                "ssl weak" "0";
              finding "2024-01-01 00:00:00" "High" "10.0.0.2" "tcp" "443"
                "ssl weak" "0" ];
     ledger_file := None |}.

(** A store with a record that compaction cannot key, beside a duplicate. *)
Definition store_with_unkeyable : csv :=
  [ finding "2024-02-01 00:00:00" "High" "10.0.0.1" "tcp" "443" "ssl weak" "1";
    finding "2024-01-01 00:00:00" "High" "10.0.0.1" "tcp" "443" "ssl weak" "0";
    finding "not a date" "High" "10.0.0.9" "tcp" "443" "ssl weak" "0" ].



(** The listing of a directory with one scan, and the world after a first
    run over it. *)
Definition ssl_listing : list (string * option src_frame) :=
  [ ("2024-01-01-scan_ssl_weak.csv", Some (scan_at "2024-01-01 00:00:00")) ].

Definition after_first_run : world :=
  Processor.ingest (P:=pandas_stable) empty_world ssl_listing io_ok.

(** ** Characters of a label *)

(** An ASCII capital, which [lower] turns into its small letter. *)
Definition is_upper (a : ascii) : bool :=
  (Nat.leb 65 (nat_of_ascii a) && Nat.leb (nat_of_ascii a) 90)%bool.

(** The characters of a text, in order. *)
Abbreviation chars := list_ascii_of_string.

(** [g] is the token of the leftmost marker of [s]: [s] is some text,
    [scan_], [g] and a rest; [g] is not empty and has neither [-] nor [.];
    the rest is empty or begins with one of them; and the pattern matches at
    no earlier position. *)
Definition leftmost_token (s g : string) : Prop :=
  ∃ pre rest,
    s = pre +:+ "scan_" +:+ g +:+ rest
    ∧ g ≠ ""
    ∧ (∀ a, a ∈ chars g → is_sep a = false)
    ∧ (rest = "" ∨ ∃ c rest', rest = String c rest' ∧ is_sep c = true)
    ∧ ∀ p1 a p2, pre = p1 +:+ String a p2 →
        match_scan_at (String a p2 +:+ "scan_" +:+ g +:+ rest) = None.

(** A label in normal form: no white space in front or behind, no
    underscore, no [-], no [.] and no ASCII capital. *)
Definition normalised (label : string) : Prop :=
  strip label = label
  ∧ ∀ a, a ∈ chars label →
      a ≠ "_"%char ∧ is_sep a = false ∧ is_upper a = false.

(** [sep] occurs in [s]. *)
Definition occurs (sep s : string) : Prop := ∃ u v, s = u +:+ sep +:+ v.

(** ** [script_V3.0.py], the command-line copy (lines 149-324) *)

Inductive mode := discover | process.

Module V3_cli.
Section v3_cli.
Context `{P : Pandas}.

(** Lines 158-181: the two counters that discover mode prints; a file
    that cannot be read or has no row counts as a file with an issue. *)
Record discovery := {
  total_new_rows : nat;
  files_with_issues : nat
}.

Definition run_discover_mode
    (files_to_process : list (string * option src_frame)) : discovery :=
  foldl (λ acc entry,
           match entry.2 with
           | Some df_src =>
               if bool_decide (src_columns df_src = [] ∨ src_rows df_src = [])
               then {| total_new_rows := total_new_rows acc;
                       files_with_issues := S (files_with_issues acc) |}
               else {| total_new_rows :=
                         (total_new_rows acc + length (src_rows df_src))%nat;
                       files_with_issues := files_with_issues acc |}
           | None =>
               {| total_new_rows := total_new_rows acc;
                  files_with_issues := S (files_with_issues acc) |}
           end)
    {| total_new_rows := 0; files_with_issues := 0 |} files_to_process.

(** The rows collected from the files and the names of the files they
    came from. *)
Record collected := {
  all_new_data : list frame;
  newly_processed_log : list string
}.

(** Lines 210-233: one iteration of the loop of process mode. *)
Definition collect (acc : collected) (entry : string * option src_frame)
    : collected :=
  let '(filename, contents) := entry in
  match contents with
  | None => acc
  | Some df_src =>
      if bool_decide (Processor.valid_cols df_src = []) then acc
      else
        let temp :=
          Processor.normalize df_src
            (Str (V3_tagger.extract_issue_from_filename filename)) in
        if bool_decide (temp = []) then acc
        else {| all_new_data := all_new_data acc ++ [temp];
                newly_processed_log := newly_processed_log acc ++ [filename] |}
  end.

(** Lines 184-277.  Without new data the function returns before it
    touches the destination or the log. *)
Definition run_process_mode (w : world)
    (files_to_process : list (string * option src_frame))
    (io : io_outcome) : world :=
  let df_dest := Processor.load_destination w in
  let acc :=
    foldl collect {| all_new_data := []; newly_processed_log := [] |}
      files_to_process in
  if bool_decide (all_new_data acc = []) then w
  else
    let df_new := concat (all_new_data acc) in
    let df_dest := coerce_recurring_column df_dest in
    let df_new := Processor.resolve_row df_dest <$> df_new in
    let df_final :=
      sort_values_desc (to_datetime_column (df_new ++ df_dest)) in
    {| store_file :=
         if store_write_ok io then Some (to_csv df_final) else store_file w;
       ledger_file :=
         match newly_processed_log acc with
         | [] => ledger_file w
         | _ =>
             if ledger_write_ok io
             then Some (ledger_lines w ++ newly_processed_log acc)
             else ledger_file w
         end |}.

(** Lines 305-306: the files with a known extension that the log does
    not name. *)
Definition files_to_process (w : world)
    (listing : list (string * option src_frame))
    : list (string * option src_frame) :=
  filter (λ entry, entry.1 ∉ Processor.load_processed_files w)
    (filter (λ entry, endswith entry.1 ".csv" || endswith entry.1 ".xlsx")
       listing).

(** Lines 279-321.  Discover mode changes no file. *)
Definition main (m : mode) (w : world)
    (listing : list (string * option src_frame)) (io : io_outcome) : world :=
  if bool_decide (files_to_process w listing = []) then w
  else
    match m with
    | discover => w
    | process => run_process_mode w (files_to_process w listing) io
    end.
End v3_cli.
End V3_cli.

(** ** Words for the properties of a run *)

(** The rows of a file that survive [dropna(how='all')]. *)
Definition rows_admitted (entry : string * option src_frame) : nat :=
  match entry.2 with
  | Some df_src =>
      length (filter (λ r, Processor.has_value df_src r) (src_rows df_src))
  | None => 0%nat
  end.

(** The rows of a file as it is read. *)
Definition rows_read (entry : string * option src_frame) : nat :=
  match entry.2 with
  | Some df_src => length (src_rows df_src)
  | None => 0%nat
  end.


Section rewriting.
Context `{P : Pandas}.

(** A field of the store after it was read, stripped and written back. *)
Definition reread (s : string) : string :=
  if bool_decide (s ∈ na_values) then "" else strip s.

(** The same for the Timestamp field, which goes through [to_datetime]. *)
Definition reread_time (s : string) : string :=
  if bool_decide (s ∈ na_values) then ""
  else match to_datetime_text (strip s) with
       | Some t => render_datetime t
       | None => ""
       end.

Definition rewritten (r0 : row string) : row string :=
  set_Timestamp (reread_time (Timestamp r0)) (map_row reread r0).
End rewriting.

(** A file that can be read, has a mapped column and a row with a value in
    one: what process mode takes rows from. *)
Definition usable (entry : string * option src_frame) : bool :=
  match entry.2 with
  | Some df_src =>
      negb (bool_decide (Processor.valid_cols df_src = []))
      && negb (bool_decide
                 (filter (λ r, Processor.has_value df_src r) (src_rows df_src)
                  = []))
  | None => false
  end.

(** ** More examples *)

Definition io_log_fails : io_outcome :=
  {| store_write_ok := true; ledger_write_ok := false |}.

(** A directory with two scans of one finding and a file that is no table. *)
Definition two_scans : list (string * option src_frame) :=
  [ ("2024-01-01-scan_ssl_weak-geo.csv", Some (scan_at "2024-01-01 00:00:00"));
    ("2024-02-01-scan_ssl_weak-geo.csv", Some (scan_at "2024-02-01 00:00:00"));
    ("readme.txt", None) ].

(** A log that names a file with a blank in front. *)
Definition padded_log : world :=
  {| store_file := None; ledger_file := Some [" scan.csv"] |}.

(** ** The issue tagger *)

Lemma append_cons a (s1 s2 : string) :
  String a s1 +:+ s2 = String a (s1 +:+ s2).
Proof. reflexivity. Qed.

Lemma append_nil_l (s : string) : "" +:+ s = s.
Proof. reflexivity. Qed.

Lemma drop_prefix_Some p s r : drop_prefix p s = Some r ↔ s = p +:+ r.
Proof.
  revert s. induction p as [|a p IH]; intros s.
  - rewrite append_nil_l. destruct s; simpl; split; congruence.
  - rewrite append_cons. destruct s as [|b s]; simpl; [split; congruence|].
    destruct (Ascii.eqb_spec a b) as [->|Hne].
    + rewrite IH. split; congruence.
    + split; congruence.
Qed.

Lemma token_empty s :
  token s = "" ↔ s = "" ∨ ∃ c rest, s = String c rest ∧ is_sep c = true.
Proof.
  destruct s as [|c s]; simpl.
  - split; [by left|done].
  - destruct (is_sep c) eqn:Hc.
    + split; [|done]. intros _. right. by exists c, s.
    + split; [discriminate|]. intros [?|(c' & rest & ? & ?)]; [done|]. simplify_eq. congruence.
Qed.

Lemma match_scan_at_None s :
  match_scan_at s = None ↔
  ¬ ∃ c rest, s = "scan_" +:+ String c rest ∧ is_sep c = false.
Proof.
  unfold match_scan_at. destruct (drop_prefix "scan_" s) as [r|] eqn:Hd.
  - apply drop_prefix_Some in Hd as ->.
    destruct (token r) eqn:Ht.
    + apply token_empty in Ht. split; [|done].
      intros _ (c & rest & Heq & Hc). apply (inj _) in Heq as ->.
      destruct Ht as [?|(c' & rest' & ? & ?)]; simplify_eq; congruence.
    + split; [done|]. intros Hno. exfalso. apply Hno.
      destruct r as [|c rest]; [done|]. simpl in Ht.
      destruct (is_sep c) eqn:Hc; [done|]. eauto.
  - split; [|done]. intros _ (c & rest & Heq & _).
    pose proof (proj2 (drop_prefix_Some "scan_" s (String c rest)) Heq).
    congruence.
Qed.

Lemma re_search_scan_None s : re_search_scan s = None ↔ ¬ has_marker s.
Proof.
  induction s as [|a s IH].
  - simpl. split; [|done]. intros _ (pre & c & rest & Heq & _).
    destruct pre; discriminate.
  - cbn [re_search_scan]. destruct (match_scan_at (String a s)) eqn:Hm.
    + split; [done|]. intros Hno. exfalso.
      assert (match_scan_at (String a s) ≠ None) as Hne by congruence.
      apply Hne, match_scan_at_None. intros (c & rest & Heq & Hc).
      apply Hno. exists "", c, rest. by rewrite append_nil_l.
    + rewrite IH. apply match_scan_at_None in Hm. split.
      * intros Hs (pre & c & rest & Heq & Hc). destruct pre as [|b pre].
        -- rewrite append_nil_l in Heq. apply Hm; eauto.
        -- rewrite append_cons in Heq. simplify_eq. apply Hs.
           by exists pre, c, rest.
      * intros Hs (pre & c & rest & -> & Hc). apply Hs.
        exists (String a pre), c, rest. by rewrite append_cons.
Qed.






Lemma normalize_Recurring_Issue df_src issue r :
  r ∈ Processor.normalize df_src issue → Recurring_Issue r = Int 0.
Proof.
  unfold Processor.normalize. intros (x & -> & _)%list_elem_of_fmap. done.
Qed.

Lemma normalize_Issue df_src issue r :
  r ∈ Processor.normalize df_src issue → Issue r = issue.
Proof.
  unfold Processor.normalize. intros (x & -> & _)%list_elem_of_fmap. done.
Qed.


(** ** The tagger without a marker *)

(** C5.  For a file name without the marker the tagger of
    [shadowserver_files_processor.py] returns no label, and every row of the
    file carries a missing Issue; the tagger of [script_V3.0.py] returns the
    sentinel. *)
Theorem tagger_without_marker (filename : string) :
  ¬ has_marker filename →
  Processor_tagger.extract_issue_from_filename filename = None
  ∧ (∀ df_src r,
       r ∈ Processor.normalize df_src (Processor.issue_cell filename) →
       Issue r = NaN)
  ∧ V3_tagger.extract_issue_from_filename filename = "unknown issue".
Proof.
  intros Hno%re_search_scan_None.
  assert (Processor_tagger.extract_issue_from_filename filename = None) as Hp.
  { unfold Processor_tagger.extract_issue_from_filename. by rewrite Hno. }
  split; [done|]. split.
  - intros df_src r Hr%normalize_Issue.
    unfold Processor.issue_cell in Hr. by rewrite Hp in Hr.
  - unfold V3_tagger.extract_issue_from_filename. by rewrite Hno.
Qed.

(** ** The coercion of Recurring Issue *)

Lemma coerce_recurring_Int `{P : Pandas} c : ∃ n, coerce_recurring c = Int n.
Proof.
  unfold coerce_recurring, to_numeric.
  destruct c as [|s|n|t]; simpl; eauto.
  destruct (to_numeric_text s); simpl; eauto.
Qed.

Lemma coerce_recurring_column_Int `{P : Pandas} df r :
  r ∈ coerce_recurring_column df → ∃ n, Recurring_Issue r = Int n.
Proof.
  intros (x & -> & _)%list_elem_of_fmap. simpl. apply coerce_recurring_Int.
Qed.


(** ** Insertion sort *)

Section insertion.
Context {A : Type} (leb : A → A → bool).

Lemma insert_sorted_Permutation x l : insert_sorted leb x l ≡ₚ x :: l.
Proof.
  induction l as [|y l IH]; simpl; [done|].
  destruct (leb x y); [done|]. rewrite IH. apply Permutation_swap.
Qed.

Lemma sort_stable_Permutation l : sort_stable leb l ≡ₚ l.
Proof.
  induction l as [|x l IH]; simpl; [done|].
  fold (sort_stable leb l). by rewrite insert_sorted_Permutation, IH.
Qed.

Lemma elem_of_sort_stable x l : x ∈ sort_stable leb l ↔ x ∈ l.
Proof. by rewrite sort_stable_Permutation. Qed.

Lemma length_sort_stable l : length (sort_stable leb l) = length l.
Proof. by rewrite sort_stable_Permutation. Qed.

Context (R : relation A).
Hypothesis leb_true : ∀ x y, leb x y = true → R x y.
Hypothesis leb_false : ∀ x y, leb x y = false → R y x.

Lemma insert_sorted_Sorted x l :
  Sorted R l → Sorted R (insert_sorted leb x l).
Proof.
  induction 1 as [|y l Hl IH Hhd]; simpl.
  - by repeat constructor.
  - destruct (leb x y) eqn:Hxy.
    + repeat constructor; auto.
    + constructor; [done|].
      destruct Hhd as [|z l Hyz]; simpl.
      * constructor. auto.
      * destruct (leb x z); constructor; auto.
Qed.

Lemma sort_stable_Sorted l : Sorted R (sort_stable leb l).
Proof.
  induction l as [|x l IH]; simpl; [constructor|].
  by apply insert_sorted_Sorted.
Qed.
End insertion.

(** ** The two kernels keep the promise of the interface *)

Lemma stable_sort_laws : SortLaws pandas_stable.
Proof.
  split; simpl; intros A key l; unfold insertion_kernel.
  - apply sort_stable_Permutation.
  - apply sort_stable_Sorted; intros x y; lia.
Qed.


Lemma decimal_parse_text n : decimal_parse (decimal_text n) = Some n.
Proof.
  unfold decimal_parse, decimal_text.
  rewrite DecimalString.NilZero.isi.
  - simpl. by rewrite DecimalZ.of_to.
  - destruct n; simpl; [done| |done].
    intros [= H]. by apply DecimalPos.Unsigned.to_uint_nonnil in H.
  - destruct n; simpl; [done|done|].
    intros [= H]. by apply DecimalPos.Unsigned.to_uint_nonnil in H.
Qed.

Lemma decimal_text_notna n : decimal_text n ∉ na_values.
Proof.
  intros Hin. pose proof (decimal_parse_text n) as Hp.
  unfold na_values in Hin.
  repeat (apply elem_of_cons in Hin as [Hin|Hin];
          [rewrite Hin in Hp; vm_compute in Hp; discriminate|]).
  by apply elem_of_nil in Hin.
Qed.

Lemma timestamp_digits_inv s d :
  timestamp_digits s = Some d → timestamp_of_digits d = Some s.
Proof.
  unfold timestamp_digits.
  do 19 (destruct s as [|? s]; [done|]). destruct s; [|done].
  repeat match goal with
         | |- context [Ascii.eqb ?a ?b] => destruct (Ascii.eqb_spec a b); subst
         end; simpl; try done.
  by intros [= <-].
Qed.

Lemma timestamp_parse_text s t :
  timestamp_parse s = Some t → timestamp_text t = s.
Proof.
  unfold timestamp_parse, timestamp_text.
  destruct (timestamp_digits s) as [d|] eqn:Hd; [|done]. simpl.
  destruct (decimal_parse d) as [t'|]; [|done]. simpl.
  case_bool_decide as Ht; [|done]. intros [= <-].
  by rewrite Ht, (timestamp_digits_inv _ _ Hd).
Qed.

Lemma timestamp_text_notna s t :
  timestamp_parse s = Some t → timestamp_text t ∉ na_values.
Proof.
  intros Hs. rewrite (timestamp_parse_text _ _ Hs). intros Hin.
  unfold na_values in Hin.
  repeat (apply elem_of_cons in Hin as [Hin|Hin];
          [rewrite Hin in Hs; vm_compute in Hs; discriminate|]).
  by apply elem_of_nil in Hin.
Qed.

Lemma stable_round_trip : RoundTripLaws pandas_stable.
Proof.
  split; simpl.
  - apply decimal_parse_text.
  - apply decimal_text_notna.
  - intros s t Hs. by rewrite (timestamp_parse_text _ _ Hs).
  - apply timestamp_text_notna.
Qed.

(** ** [sort_values] by Timestamp, newest first *)

Section sort_values.
Context `{P : Pandas} {L : SortLaws P}.

Lemma sort_values_desc_Permutation df : sort_values_desc df ≡ₚ df.
Proof.
  unfold sort_values_desc.
  rewrite reverse_Permutation, quicksort_perm, reverse_Permutation.
  assert (filter (λ r, isna (Timestamp r)) df
          = filter (λ r, ¬ notna (Timestamp r)) df) as ->.
  { apply list_filter_iff. intros r. unfold notna.
    by destruct (isna (Timestamp r)); simpl; split; auto. }
  apply (filter_app_complement (λ r, notna (Timestamp r))).
Qed.

Lemma length_sort_values_desc df :
  length (sort_values_desc df) = length df.
Proof. by rewrite sort_values_desc_Permutation. Qed.

Lemma elem_of_sort_values_desc r df : r ∈ sort_values_desc df ↔ r ∈ df.
Proof. by rewrite sort_values_desc_Permutation. Qed.

End sort_values.

(** ** The loop over the files *)

Lemma has_value_spec df_src r :
  Processor.has_value df_src r = true ↔ has_mapped_value df_src r.
Proof.
  unfold Processor.has_value, has_mapped_value.
  rewrite existsb_exists. setoid_rewrite <- list_elem_of_In.
  split; intros (col & Hcol & Hv); exists col; split; try done;
    unfold Processor.src_cell in *; by destruct (r !! col).
Qed.

Lemma elem_of_normalize df_src issue t :
  t ∈ Processor.normalize df_src issue ↔
  ∃ r, r ∈ src_rows df_src ∧ has_mapped_value df_src r
       ∧ t = stamped df_src issue r.
Proof.
  unfold Processor.normalize. rewrite list_elem_of_fmap.
  setoid_rewrite list_elem_of_filter. setoid_rewrite Is_true_true.
  setoid_rewrite has_value_spec. split.
  - intros (r & -> & ? & ?). by exists r.
  - intros (r & ? & ? & ->). by exists r.
Qed.

Section loop.
Context `{P : Pandas}.

Lemma process_file_folded pf st filename df_src :
  folded pf (filename, Some df_src) = true →
  Processor.process_file pf st (filename, Some df_src)
  = {| Processor.df_dest :=
         (Processor.resolve_row (coerce_recurring_column (Processor.df_dest st))
            <$> Processor.normalize df_src (Processor.issue_cell filename))
         ++ coerce_recurring_column (Processor.df_dest st);
       Processor.newly_processed :=
         Processor.newly_processed st ++ [filename] |}.
Proof.
  unfold folded. simpl. rewrite !andb_true_iff, !negb_true_iff.
  intros [[Hext Hnew] [Hcols Hrows]].
  unfold Processor.process_file. by rewrite Hext, Hnew, Hcols, Hrows.
Qed.

Lemma process_file_not_folded pf st entry :
  folded pf entry = false → Processor.process_file pf st entry = st.
Proof.
  destruct entry as [filename contents].
  unfold folded, Processor.process_file. simpl.
  destruct (endswith filename ".csv" || endswith filename ".xlsx");
    simpl; [|done].
  destruct (bool_decide (filename ∈ pf)); simpl; [done|].
  destruct contents as [df_src|]; [|done].
  destruct (bool_decide (Processor.valid_cols df_src = [])); simpl; [done|].
  by destruct (bool_decide (Processor.normalize df_src _ = [])).
Qed.

Lemma folded_Some pf entry :
  folded pf entry = true → ∃ df_src, entry.2 = Some df_src.
Proof.
  unfold folded. destruct (entry.2); [eauto|].
  by rewrite andb_false_r.
Qed.

Lemma newly_processed_foldl pf st listing :
  Processor.newly_processed (foldl (Processor.process_file pf) st listing)
  = Processor.newly_processed st
    ++ (fst <$> filter (λ entry, folded pf entry) listing).
Proof.
  revert st. induction listing as [|entry listing IH]; intros st; simpl.
  { by rewrite app_nil_r. }
  rewrite IH. destruct (folded pf entry) eqn:Hf.
  - rewrite filter_cons_True by (apply Is_true_true, Hf). simpl.
    destruct entry as [filename contents].
    destruct (folded_Some _ _ Hf) as [df_src Hc]. simpl in Hc. subst.
    rewrite (process_file_folded _ _ _ _ Hf). simpl.
    by rewrite <- app_assoc.
  - rewrite filter_cons_False by (apply Is_true_false, Hf).
    by rewrite (process_file_not_folded _ _ _ Hf).
Qed.

Lemma foldl_not_folded pf st listing :
  (∀ entry, entry ∈ listing → folded pf entry = false) →
  foldl (Processor.process_file pf) st listing = st.
Proof.
  revert st. induction listing as [|entry listing IH]; intros st H; [done|].
  simpl. rewrite (process_file_not_folded pf st entry) by (apply H; left).
  apply IH. intros e He. apply H. by right.
Qed.

Lemma folded_in_ledger pf entry : entry.1 ∈ pf → folded pf entry = false.
Proof.
  intros Hin. unfold folded. rewrite (bool_decide_eq_true_2 _ Hin).
  simpl. by rewrite andb_false_r.
Qed.


Lemma ledger_lines_ingest w listing io :
  ledger_write_ok io = true →
  ledger_lines (Processor.ingest w listing io)
  = ledger_lines w
    ++ (fst <$> filter (λ entry, folded (Processor.load_processed_files w) entry)
                  listing).
Proof.
  intros Hok. unfold Processor.ingest, Processor.run_loop.
  unfold ledger_lines at 1. simpl.
  rewrite newly_processed_foldl. simpl. rewrite Hok.
  destruct (fst <$> filter _ listing) as [|x l]; simpl; [|done].
  by rewrite app_nil_r.
Qed.
End loop.

(** ** What normalization admits *)

(** C3, as the code has it.  Of a file that the loop folds in, a source row
    is dropped only when it has no value in any mapped column: every row
    with a value in one of them reaches the destination, whether or not it
    has an ip, the other key parts or a timestamp, and nothing else does. *)
Theorem normalization_admits `{P : Pandas} (processed_files : gset string)
    (st : Processor.loop_state) (filename : string) (df_src : src_frame) :
  folded processed_files (filename, Some df_src) = true →
  let dest := coerce_recurring_column (Processor.df_dest st) in
  let issue := Processor.issue_cell filename in
  ∀ t,
    t ∈ Processor.df_dest
          (Processor.process_file processed_files st (filename, Some df_src))
    ↔ t ∈ dest
      ∨ ∃ r, r ∈ src_rows df_src ∧ has_mapped_value df_src r
             ∧ t = Processor.resolve_row dest (stamped df_src issue r).
Proof.
  intros Hf dest issue t. rewrite (process_file_folded _ _ _ _ Hf). simpl.
  rewrite elem_of_app, list_elem_of_fmap.
  setoid_rewrite elem_of_normalize. split.
  - intros [(x & -> & r & ? & ? & ->)|?]; [right; by exists r|by left].
  - intros [?|(r & ? & ? & ->)]; [by right|left].
    eexists; split; [done|]. by exists r.
Qed.

(** ** The loop of [script_V3.0.py] when the log can be written *)

Section v3_loop.
Context `{P : Pandas}.


End v3_loop.

(** ** The log after a save that failed *)


(** ** A second run over the same directory *)


(** ** The orders of the multi-column sort *)

Global Instance string_leb_order : BoolOrder String.leb.
Proof.
  split.
  - intros x y z Hxy Hyz. apply Is_true_true.
    apply Is_true_true in Hxy, Hyz.
    exact (transitivity (R:=String.le) Hxy Hyz).
  - intros x y Hxy. destruct (String.leb_total x y); congruence.
Qed.

Global Instance string_leb_antisymm : BoolAntiSymm String.leb.
Proof. intros x y. apply String.leb_antisym. Qed.

Global Instance time_desc_order : BoolOrder (λ t1 t2 : Z, t2 <=? t1).
Proof. split; intros; lia. Qed.

Lemma bool_order_refl {A} (le : A → A → bool) `{!BoolOrder le} x :
  le x x = true.
Proof.
  destruct (le x x) eqn:Hx; [done|]. by rewrite (bool_order_total _ _ Hx) in Hx.
Qed.

Global Instance lex_leb_order {A B} `{EqDecision A} (leA : A → A → bool)
    (leB : B → B → bool) `{!BoolOrder leA, !BoolAntiSymm leA, !BoolOrder leB} :
  BoolOrder (lex_leb leA leB).
Proof.
  split.
  - intros [a1 b1] [a2 b2] [a3 b3]. unfold lex_leb. simpl.
    repeat case_bool_decide; subst; try done.
    + apply bool_order_trans.
    + intros H12 H23.
      pose proof (bool_order_antisymm (le:=leA) _ _ H12 H23). done.
    + apply bool_order_trans.
  - intros [a1 b1] [a2 b2]. unfold lex_leb. simpl.
    repeat case_bool_decide; subst; try done; apply bool_order_total.
Qed.

Global Instance lex_leb_antisymm {A B} `{EqDecision A} (leA : A → A → bool)
    (leB : B → B → bool) `{!BoolAntiSymm leA, !BoolAntiSymm leB} :
  BoolAntiSymm (lex_leb leA leB).
Proof.
  intros [a1 b1] [a2 b2]. unfold lex_leb. simpl.
  repeat case_bool_decide; subst; try done.
  - intros H1 H2. f_equal. by apply (bool_order_antisymm (le:=leB)).
  - intros H1 H2. by pose proof (bool_order_antisymm (le:=leA) _ _ H1 H2).
Qed.

Global Instance key_leb_order : BoolOrder Dedup.key_leb.
Proof. unfold Dedup.key_leb. apply _. Qed.

Global Instance key_leb_antisymm : BoolAntiSymm Dedup.key_leb.
Proof. unfold Dedup.key_leb. apply _. Qed.

Global Instance row_leb_order : BoolOrder Dedup.row_leb.
Proof.
  split; unfold Dedup.row_leb.
  - intros x y z. apply bool_order_trans.
  - intros x y. apply bool_order_total.
Qed.

Lemma row_leb_same_key r1 r2 :
  Dedup.group_key r1 = Dedup.group_key r2 →
  Dedup.row_leb r1 r2 = true →
  time_of (Timestamp r2) ≤ time_of (Timestamp r1).
Proof.
  unfold Dedup.row_leb, lex_leb. simpl. intros ->.
  rewrite bool_decide_eq_true_2 by done. lia.
Qed.

(** ** Sorted lists under a boolean order *)

Section bool_sorted.
Context {A} (le : A → A → bool) `{!BoolOrder le}.

Lemma sort_stable_StronglySorted l :
  StronglySorted (λ x y, le x y = true) (sort_stable le l).
Proof.
  assert (Transitive (λ x y : A, le x y = true))
    by (intros x y z; apply bool_order_trans).
  apply (Sorted_StronglySorted _).
  apply sort_stable_Sorted; [done|apply bool_order_total].
Qed.

Lemma sort_stable_unique `{!BoolAntiSymm le} l1 l2 :
  l1 ≡ₚ l2 → sort_stable le l1 = sort_stable le l2.
Proof.
  intros Hperm.
  apply (StronglySorted_unique_strong (λ x y, le x y = true)).
  - intros x y _ _. apply bool_order_antisymm.
  - apply sort_stable_StronglySorted.
  - apply sort_stable_StronglySorted.
  - by rewrite !sort_stable_Permutation.
Qed.
End bool_sorted.

Lemma StronglySorted_filter {A} (R : relation A) (Q : A → Prop)
    `{∀ x, Decision (Q x)} l :
  StronglySorted R l → StronglySorted R (filter Q l).
Proof.
  induction 1 as [|x l Hl IH Hall]; [constructor|].
  rewrite filter_cons. destruct (decide (Q x)); [|done].
  constructor; [done|]. apply Forall_forall.
  intros y [_ Hy]%list_elem_of_filter. by eapply Forall_forall in Hall.
Qed.

(** ** The rows that compaction works on *)

Lemma read_csv_cell_cases s :
  read_csv_cell s = NaN ∨ (read_csv_cell s = Str s ∧ s ∉ na_values).
Proof.
  unfold read_csv_cell. case_bool_decide; auto.
Qed.

Lemma notna_read_csv_cell s :
  notna (read_csv_cell s) = true → read_csv_cell s = Str s.
Proof. by destruct (read_csv_cell_cases s) as [->|[-> _]]. Qed.

Section prepared.
Context `{P : Pandas}.

Lemma elem_of_converted f r :
  r ∈ converted f ↔
  ∃ r0, r0 ∈ f
    ∧ r = set_Recurring_Issue
            (coerce_recurring (read_csv_cell (Recurring_Issue r0)))
            (set_Timestamp (to_datetime (read_csv_cell (Timestamp r0)))
               (map_row read_csv_cell r0)).
Proof.
  unfold converted, coerce_recurring_column, to_datetime_column, read_csv.
  rewrite <- !list_fmap_compose, list_elem_of_fmap. simpl.
  split; intros (r0 & Hr & Hin); exists r0; split; done.
Qed.

Lemma prepare_keyable f r :
  r ∈ Dedup.prepare f ↔ r ∈ converted f ∧ Dedup.keyable r = true.
Proof.
  unfold Dedup.prepare, converted.
  rewrite list_elem_of_filter, Is_true_true. tauto.
Qed.

Lemma prepare_cells f r :
  r ∈ Dedup.prepare f →
  (∃ t, Timestamp r = Time t) ∧ (∃ n, Recurring_Issue r = Int n)
  ∧ is_text (Severity r) ∧ is_text (IP r) ∧ is_text (Protocol r)
  ∧ is_text (Port r) ∧ is_text (State r).
Proof.
  intros [Hc Hk]%prepare_keyable.
  apply elem_of_converted in Hc as (r0 & _ & ->).
  unfold Dedup.keyable in Hk. simpl in Hk.
  rewrite !andb_true_iff in Hk.
  destruct Hk as [[[[[H1 H2] H3] H4] H5] H6]. simpl.
  split.
  { unfold to_datetime in *.
    destruct (read_csv_cell (Timestamp r0)) as [|s|n|t]; try done; [|eauto].
    destruct (to_datetime_text s); [eauto|done]. }
  split; [apply coerce_recurring_Int|].
  unfold is_text. rewrite (notna_read_csv_cell _ H1),
    (notna_read_csv_cell _ H2), (notna_read_csv_cell _ H3),
    (notna_read_csv_cell _ H4), (notna_read_csv_cell _ H5). eauto 10.
Qed.

Lemma prepare_same_group f r1 r2 :
  r1 ∈ Dedup.prepare f → r2 ∈ Dedup.prepare f →
  Dedup.group_key r1 = Dedup.group_key r2 ↔ same_group r1 r2.
Proof.
  intros (_ & _ & [a1 Ha1] & [b1 Hb1] & [c1 Hc1] & [d1 Hd1] & [e1 He1])%prepare_cells
         (_ & _ & [a2 Ha2] & [b2 Hb2] & [c2 Hc2] & [d2 Hd2] & [e2 He2])%prepare_cells.
  unfold Dedup.group_key, same_group.
  rewrite Ha1, Hb1, Hc1, Hd1, He1, Ha2, Hb2, Hc2, Hd2, He2. simpl.
  split.
  - intros [= -> -> -> -> ->]. done.
  - intros ([= ->] & [= ->] & [= ->] & [= ->] & [= ->]). done.
Qed.
End prepared.

(** ** Groups and the records kept for them *)

Lemma elem_of_df_sorted r df : r ∈ Dedup.df_sorted df ↔ r ∈ df.
Proof. apply elem_of_sort_stable. Qed.

Lemma elem_of_keys_of k df :
  k ∈ keys_of df ↔ ∃ r, r ∈ df ∧ Dedup.group_key r = k.
Proof.
  unfold keys_of. rewrite elem_of_sort_stable, elem_of_remove_dups,
    list_elem_of_fmap. setoid_rewrite elem_of_df_sorted.
  split; intros (r & ? & ?); exists r; done.
Qed.

Lemma NoDup_keys_of df : NoDup (keys_of df).
Proof.
  unfold keys_of. rewrite sort_stable_Permutation. apply NoDup_remove_dups.
Qed.

Lemma elem_of_group_of r df k :
  r ∈ group_of df k ↔ r ∈ df ∧ Dedup.group_key r = k.
Proof.
  unfold group_of. rewrite list_elem_of_filter, elem_of_df_sorted. tauto.
Qed.

Lemma length_group_of df k :
  length (group_of df k) = length (filter (λ r, Dedup.group_key r = k) df).
Proof.
  unfold group_of, Dedup.df_sorted. by rewrite sort_stable_Permutation.
Qed.

Lemma group_of_latest df k latest others :
  group_of df k = latest :: others →
  latest ∈ df ∧ Dedup.group_key latest = k
  ∧ ∀ r, r ∈ df → Dedup.group_key r = k →
         time_of (Timestamp r) ≤ time_of (Timestamp latest).
Proof.
  intros Hg.
  assert (latest ∈ group_of df k) as Hl by (rewrite Hg; left).
  apply elem_of_group_of in Hl as [Hin Hk]. split; [done|]. split; [done|].
  intros r Hr Hrk.
  assert (r ∈ group_of df k) as Hrg by (by apply elem_of_group_of).
  pose proof (StronglySorted_filter _ (λ r, Dedup.group_key r = k) _
    (sort_stable_StronglySorted Dedup.row_leb df)) as Hs.
  fold (Dedup.df_sorted df) in Hs. fold (group_of df k) in Hs.
  rewrite Hg in Hs, Hrg. apply StronglySorted_cons in Hs as [Hall _].
  apply elem_of_cons in Hrg as [->|Hrg]; [lia|].
  rewrite Forall_forall in Hall. apply row_leb_same_key; [congruence|auto].
Qed.

Lemma collapse_kept group latest others n :
  group = latest :: others → Recurring_Issue latest = Int n →
  Dedup.collapse group = Some (kept_record (length group) latest).
Proof.
  intros -> Hn. unfold Dedup.collapse, kept_record. f_equal.
  destruct (0 <? _) eqn:Hd; [done|]. apply Z.ltb_ge in Hd.
  assert (Z.of_nat (length (latest :: others)) - 1 = 0) as ->
    by (cbn [length] in *; lia).
  rewrite Hn. simpl. rewrite Z.add_0_r, <- Hn. by destruct latest.
Qed.

Lemma final_records_Forall2 df :
  (∀ r, r ∈ df → ∃ n, Recurring_Issue r = Int n) →
  Forall2 (λ k t, ∃ latest others,
             group_of df k = latest :: others
             ∧ t = kept_record (length (group_of df k)) latest)
    (keys_of df) (Dedup.final_records df).
Proof.
  intros Hint. unfold Dedup.final_records, Dedup.groupby.
  fold (keys_of df).
  assert (∀ k, k ∈ keys_of df → ∃ r, r ∈ df ∧ Dedup.group_key r = k) as Hk
    by (intros k; apply elem_of_keys_of).
  revert Hk. generalize (keys_of df). intros K HK.
  induction K as [|k K IH]; [constructor|].
  rewrite fmap_cons. simpl. fold (group_of df k).
  destruct (HK k) as (r & Hr & Hrk); [left|].
  destruct (group_of df k) as [|latest others] eqn:Hg.
  { exfalso. assert (r ∈ group_of df k) as Hin by (by apply elem_of_group_of).
    rewrite Hg in Hin. by apply elem_of_nil in Hin. }
  destruct (group_of_latest _ _ _ _ Hg) as (Hl & _ & _).
  destruct (Hint _ Hl) as [n Hn].
  rewrite <- Hg at 1. rewrite (collapse_kept _ latest others n) by done.
  constructor.
  - exists latest, others. by rewrite Hg.
  - apply IH. intros k' Hk'. apply HK. by right.
Qed.

Lemma filter_ext_elem_of {A} (Q1 Q2 : A → Prop) `{∀ x, Decision (Q1 x)}
    `{∀ x, Decision (Q2 x)} (l : list A) :
  (∀ x, x ∈ l → Q1 x ↔ Q2 x) → filter Q1 l = filter Q2 l.
Proof.
  induction l as [|x l IH]; intros Hl; [done|].
  rewrite !filter_cons, IH by (intros y Hy; apply Hl; by right).
  specialize (Hl x (list_elem_of_here _ _)).
  destruct (decide (Q1 x)), (decide (Q2 x)); tauto.
Qed.

Lemma group_key_kept_record n r :
  Dedup.group_key (kept_record n r) = Dedup.group_key r.
Proof. done. Qed.

Lemma same_group_group_key r1 r2 :
  same_group r1 r2 → Dedup.group_key r1 = Dedup.group_key r2.
Proof.
  unfold same_group, Dedup.group_key.
  by intros (-> & -> & -> & -> & ->).
Qed.

Section kept.
Context `{P : Pandas}.

Lemma final_records_prepare f :
  Forall2 (λ k t, ∃ latest others,
             group_of (Dedup.prepare f) k = latest :: others
             ∧ t = kept_record (length (group_of (Dedup.prepare f) k)) latest)
    (keys_of (Dedup.prepare f)) (Dedup.final_records (Dedup.prepare f)).
Proof.
  apply final_records_Forall2. intros r Hr.
  by destruct (prepare_cells _ _ Hr) as (_ & ? & _).
Qed.

Lemma final_records_keys f :
  Dedup.group_key <$> Dedup.final_records (Dedup.prepare f)
  = keys_of (Dedup.prepare f).
Proof.
  symmetry. apply list_eq_Forall2, Forall2_fmap_r.
  eapply Forall2_impl; [apply final_records_prepare|]. simpl.
  intros k t (latest & others & Hg & ->).
  by destruct (group_of_latest _ _ _ _ Hg) as (_ & <- & _).
Qed.

Lemma length_final_records f :
  length (Dedup.final_records (Dedup.prepare f))
  = length (keys_of (Dedup.prepare f)).
Proof. by rewrite <- final_records_keys, length_fmap. Qed.

Lemma kept_from_group f k latest others :
  group_of (Dedup.prepare f) k = latest :: others →
  kept_from f (kept_record (length (group_of (Dedup.prepare f) k)) latest)
    latest.
Proof.
  intros Hg. destruct (group_of_latest _ _ _ _ Hg) as (Hl & Hk & Hmax).
  destruct (proj1 (prepare_keyable f latest) Hl) as [Hc Hkey].
  split; [done|]. split; [done|]. split.
  - intros r Hr Hrk Hsame. apply Hmax; [by apply prepare_keyable|].
    rewrite <- Hk. by apply same_group_group_key.
  - f_equal. rewrite length_group_of. f_equal.
    apply filter_ext_elem_of. intros r Hr.
    rewrite <- Hk. by apply (prepare_same_group f).
Qed.

Lemma final_records_kept f t :
  t ∈ Dedup.final_records (Dedup.prepare f) → ∃ latest, kept_from f t latest.
Proof.
  intros [i Hi]%list_elem_of_lookup.
  destruct (Forall2_lookup_r _ _ _ _ _ (final_records_prepare f) Hi)
    as (k & _ & latest & others & Hg & ->).
  exists latest. by eapply kept_from_group.
Qed.

Lemma final_records_covers f r :
  r ∈ Dedup.prepare f →
  ∃ t, t ∈ Dedup.final_records (Dedup.prepare f) ∧ same_group t r.
Proof.
  intros Hr.
  assert (Dedup.group_key r ∈ keys_of (Dedup.prepare f)) as Hk
    by (apply elem_of_keys_of; eauto).
  apply list_elem_of_lookup in Hk as [i Hi].
  destruct (Forall2_lookup_l _ _ _ _ _ (final_records_prepare f) Hi)
    as (t & Ht & latest & others & Hg & ->).
  exists (kept_record (length (group_of (Dedup.prepare f) (Dedup.group_key r)))
            latest).
  split; [by eapply list_elem_of_lookup_2|].
  destruct (group_of_latest _ _ _ _ Hg) as (Hl & Hlk & _).
  apply (prepare_same_group f latest r Hl Hr) in Hlk. exact Hlk.
Qed.

Lemma final_records_keyable f t :
  t ∈ Dedup.final_records (Dedup.prepare f) → Dedup.keyable t = true.
Proof.
  intros (latest & _ & Hk & _ & ->)%final_records_kept. exact Hk.
Qed.

Lemma NoDup_final_keys f :
  NoDup (Dedup.group_key <$> Dedup.final_records (Dedup.prepare f)).
Proof. rewrite final_records_keys. apply NoDup_keys_of. Qed.

Lemma deduplicate_and_update_Some f rep :
  Dedup.deduplicate_and_update (Some f) true = Some rep →
  Dedup.written rep = to_csv (compacted f)
  ∧ Dedup.removed rep
    = Z.of_nat (length (Dedup.prepare f)) - Z.of_nat (length (compacted f))
  ∧ Dedup.saved rep = length (compacted f)
  ∧ Dedup.final_records (Dedup.prepare f) ≠ [].
Proof.
  unfold Dedup.deduplicate_and_update. case_bool_decide; [done|].
  by intros [= <-].
Qed.
End kept.

(** ** What compaction keeps *)


(** ** The count that compaction reports *)

(** C9, as the code has it.  The count that a compaction run reports is the
    number of records that passed the filter minus the number of records
    written: the records that the filter excluded are absent from the output
    and are not counted. *)
Theorem removed_count `{P : Pandas} {L : SortLaws P} (f : csv)
    (rep : Dedup.report) :
  Dedup.deduplicate_and_update (Some f) true = Some rep →
  Dedup.removed rep
  = Z.of_nat (length (Dedup.prepare f)) - Z.of_nat (length (Dedup.written rep))
  ∧ Dedup.removed rep
    = Z.of_nat (length f) - Z.of_nat (length (Dedup.written rep))
      - Z.of_nat (length (excluded f))
  ∧ Dedup.saved rep = length (Dedup.written rep).
Proof.
  intros (Hw & Hr & Hs & _)%deduplicate_and_update_Some.
  assert (length (Dedup.written rep) = length (compacted f)) as Hlen
    by (rewrite Hw; unfold to_csv; by rewrite length_fmap).
  assert (length f = (length (Dedup.prepare f) + length (excluded f))%nat)
    as Hsplit.
  { unfold Dedup.prepare, excluded. fold (converted f).
    rewrite <- length_app, filter_app_complement.
    unfold converted, coerce_recurring_column, to_datetime_column, read_csv.
    by rewrite !length_fmap. }
  rewrite Hr, Hs, Hlen. split; [done|]. split; [lia|done].
Qed.

(** ** The order of what is written *)


(** ** Compacting what compaction wrote *)

Lemma remove_dups_NoDup {A} `{EqDecision A} (l : list A) :
  NoDup l → remove_dups l = l.
Proof.
  induction 1 as [|x l Hx Hl IH]; simpl; [done|].
  case_decide; [done|]. by rewrite IH.
Qed.

Lemma NoDup_fmap_eq {A B} (f : A → B) (l : list A) x y :
  NoDup (f <$> l) → x ∈ l → y ∈ l → f x = f y → x = y.
Proof.
  intros Hnd [i Hi]%list_elem_of_lookup [j Hj]%list_elem_of_lookup Hxy.
  assert (i = j) as ->; [|congruence].
  eapply NoDup_lookup; [exact Hnd| |].
  - by rewrite list_lookup_fmap, Hi.
  - by rewrite list_lookup_fmap, Hj, Hxy.
Qed.

Lemma length_filter_NoDup_fmap {A B} `{EqDecision B} (f : A → B)
    (l : list A) k :
  NoDup (f <$> l) → (length (filter (λ x, f x = k) l) ≤ 1)%nat.
Proof.
  induction l as [|x l IH]; simpl; [lia|].
  intros [Hx Hl]%NoDup_cons. rewrite filter_cons.
  destruct (decide (f x = k)) as [<-|]; [|auto].
  assert (filter (λ y, f y = f x) l = []) as ->; [|simpl; lia].
  apply elem_of_nil_inv. intros y [Hy Hin]%list_elem_of_filter.
  apply Hx. rewrite <- Hy. by apply list_elem_of_fmap_2.
Qed.

Lemma Forall2_functional {A B} (R : A → B → Prop) (K : list A) (l1 l2 : list B) :
  (∀ k x y, R k x → R k y → x = y) →
  Forall2 R K l1 → Forall2 R K l2 → l1 = l2.
Proof.
  intros Hf H1. revert l2.
  induction H1 as [|k x K l1 Hx _ IH]; intros l2 H2.
  - by apply Forall2_nil_inv_l in H2.
  - apply Forall2_cons_inv_l in H2 as (y & l2' & Hy & H2 & ->).
    f_equal; [by eapply Hf|by apply IH].
Qed.

Lemma kept_record_one r n :
  Recurring_Issue r = Int n → kept_record 1 r = r.
Proof.
  intros Hn. unfold kept_record. rewrite Hn. simpl.
  rewrite Z.add_0_r, <- Hn. by destruct r.
Qed.

Lemma row_eq {C} (r1 r2 : row C) :
  Timestamp r1 = Timestamp r2 → Severity r1 = Severity r2 → IP r1 = IP r2 →
  Protocol r1 = Protocol r2 → Port r1 = Port r2 → State r1 = State r2 →
  Asset_Name_Hostname r1 = Asset_Name_Hostname r2 →
  Asset_Type r1 = Asset_Type r2 → Region r1 = Region r2 → City r1 = City r2 →
  Issue r1 = Issue r2 → Description r1 = Description r2 →
  Recurring_Issue r1 = Recurring_Issue r2 →
  Client_Awareness_Training_Needed r1 = Client_Awareness_Training_Needed r2 →
  Advisory_Sent r1 = Advisory_Sent r2 →
  Date_Advisory_Sent r1 = Date_Advisory_Sent r2 →
  Issue_Resolved r1 = Issue_Resolved r2 →
  Date_Issue_Resolved r1 = Date_Issue_Resolved r2 →
  Contact_Person r1 = Contact_Person r2 → Contact_Email r1 = Contact_Email r2 →
  r1 = r2.
Proof. destruct r1, r2; simpl; intros; by subst. Qed.

Section round_trip.
Context `{P : Pandas} {RT : RoundTripLaws P}.

Lemma converted_reconvert f : converted f = reconvert <$> f.
Proof.
  unfold converted, coerce_recurring_column, to_datetime_column, read_csv.
  by rewrite <- !list_fmap_compose.
Qed.

Lemma read_csv_cell_round_trip s :
  read_csv_cell (to_csv_cell (read_csv_cell s)) = read_csv_cell s.
Proof.
  destruct (read_csv_cell_cases s) as [->|[-> Hs]]; cbn [to_csv_cell].
  - unfold read_csv_cell. rewrite bool_decide_eq_true_2; [done|].
    unfold na_values. left.
  - unfold read_csv_cell. by rewrite bool_decide_eq_false_2.
Qed.

Lemma read_csv_cell_render_int n :
  read_csv_cell (render_int n) = Str (render_int n).
Proof.
  unfold read_csv_cell. rewrite bool_decide_eq_false_2; [done|].
  apply render_int_notna.
Qed.

Lemma read_csv_cell_render_datetime s t :
  to_datetime_text s = Some t →
  read_csv_cell (render_datetime t) = Str (render_datetime t).
Proof.
  intros Hs. unfold read_csv_cell. rewrite bool_decide_eq_false_2; [done|].
  by eapply render_datetime_notna.
Qed.

Lemma reconvert_kept_record n r0 :
  Dedup.keyable (reconvert r0) = true →
  reconvert (map_row to_csv_cell (kept_record n (reconvert r0)))
  = kept_record n (reconvert r0).
Proof.
  intros Hk. unfold Dedup.keyable in Hk. rewrite !andb_true_iff in Hk.
  destruct Hk as [_ Ht].
  change (notna (to_datetime (read_csv_cell (Timestamp r0))) = true) in Ht.
  assert (∃ s t, to_datetime_text s = Some t
                 ∧ to_datetime (read_csv_cell (Timestamp r0)) = Time t)
    as (s & t & Hs & Hd).
  { destruct (read_csv_cell_cases (Timestamp r0)) as [Hc|[Hc _]];
      rewrite Hc in Ht |- *; [done|]. cbn [to_datetime] in *.
    destruct (to_datetime_text (Timestamp r0)) as [t|] eqn:Hs; [|done].
    by exists (Timestamp r0), t. }
  apply row_eq; try exact (read_csv_cell_round_trip _).
  - change (to_datetime (read_csv_cell (to_csv_cell
              (to_datetime (read_csv_cell (Timestamp r0)))))
            = to_datetime (read_csv_cell (Timestamp r0))).
    rewrite Hd. cbn [to_csv_cell].
    rewrite (read_csv_cell_render_datetime _ _ Hs). cbn [to_datetime].
    by rewrite (datetime_render _ _ Hs).
  - set (m := int_of (coerce_recurring (read_csv_cell (Recurring_Issue r0)))
              + (Z.of_nat n - 1)).
    change (coerce_recurring (read_csv_cell (render_int m)) = Int m).
    rewrite read_csv_cell_render_int. unfold coerce_recurring.
    cbn [to_numeric]. by rewrite numeric_render.
Qed.
End round_trip.

Section idempotent.
Context `{P : Pandas} {L : SortLaws P} {RT : RoundTripLaws P}.

Lemma compacted_reconverted f t :
  t ∈ compacted f →
  Dedup.keyable t = true ∧ reconvert (map_row to_csv_cell t) = t.
Proof.
  intros Ht. apply (proj1 (elem_of_sort_values_desc _ _)) in Ht.
  split; [by eapply final_records_keyable|].
  apply final_records_kept in Ht as (latest & Hl & Hk & _ & ->).
  rewrite converted_reconvert in Hl.
  apply list_elem_of_fmap in Hl as (r0 & -> & _).
  by apply reconvert_kept_record.
Qed.

Lemma prepare_compacted f :
  Dedup.prepare (to_csv (compacted f)) = compacted f.
Proof.
  unfold Dedup.prepare. fold (converted (to_csv (compacted f))).
  rewrite converted_reconvert. unfold to_csv.
  rewrite <- list_fmap_compose.
  pose proof (compacted_reconverted f) as Hall.
  induction (compacted f) as [|t l IH]; [done|].
  rewrite fmap_cons. simpl.
  destruct (Hall t) as [Hk Ht]; [left|]. rewrite Ht.
  rewrite filter_cons_True by (by apply Is_true_true).
  f_equal. apply IH. intros t' Ht'. apply Hall. by right.
Qed.

Lemma compacted_Recurring_Issue f t :
  t ∈ compacted f → ∃ n, Recurring_Issue t = Int n.
Proof.
  intros Ht. apply (proj1 (elem_of_sort_values_desc _ _)) in Ht.
  apply final_records_kept in Ht as (latest & _ & _ & _ & ->).
  unfold kept_record. simpl. eauto.
Qed.

Lemma NoDup_compacted_keys f :
  NoDup (Dedup.group_key <$> compacted f).
Proof.
  unfold compacted. rewrite sort_values_desc_Permutation.
  apply NoDup_final_keys.
Qed.

Lemma keys_of_compacted f :
  keys_of (compacted f) = keys_of (Dedup.prepare f).
Proof.
  unfold keys_of at 1.
  assert (Dedup.group_key <$> Dedup.df_sorted (compacted f)
          ≡ₚ keys_of (Dedup.prepare f)) as Hperm.
  { unfold Dedup.df_sorted. rewrite sort_stable_Permutation.
    unfold compacted. rewrite sort_values_desc_Permutation.
    by rewrite final_records_keys. }
  rewrite remove_dups_NoDup
    by (rewrite Hperm; apply NoDup_keys_of).
  rewrite (sort_stable_unique Dedup.key_leb _ _ Hperm).
  unfold keys_of.
  apply (sort_stable_unique Dedup.key_leb), sort_stable_Permutation.
Qed.

Lemma final_records_compacted f :
  Dedup.final_records (compacted f) = Dedup.final_records (Dedup.prepare f).
Proof.
  set (F := Dedup.final_records (Dedup.prepare f)).
  assert (compacted f ≡ₚ F) as Hperm
    by apply sort_values_desc_Permutation.
  assert (NoDup (Dedup.group_key <$> F)) as Hnd by apply NoDup_final_keys.
  apply (Forall2_functional
           (λ k t, t ∈ F ∧ Dedup.group_key t = k)
           (keys_of (Dedup.prepare f))).
  - intros k x y [Hx Hkx] [Hy Hky].
    eapply NoDup_fmap_eq; [exact Hnd|done|done|congruence].
  - rewrite <- keys_of_compacted.
    eapply Forall2_impl;
      [apply final_records_Forall2, compacted_Recurring_Issue|].
    simpl. intros k t (latest & others & Hg & ->).
    destruct (group_of_latest _ _ _ _ Hg) as (Hl & Hk & _).
    assert (length (group_of (compacted f) k) = 1%nat) as ->.
    { pose proof (length_filter_NoDup_fmap Dedup.group_key (compacted f) k
                    (NoDup_compacted_keys f)) as Hle.
      rewrite <- length_group_of in Hle. rewrite Hg in Hle |- *.
      simpl in *. lia. }
    destruct (compacted_Recurring_Issue f latest Hl) as [n Hn].
    rewrite (kept_record_one _ _ Hn). split; [|done].
    by rewrite <- Hperm.
  - fold F. rewrite <- (final_records_keys f). fold F.
    apply Forall2_fmap_l.
    apply Forall_Forall2_diag, Forall_forall. intros t Ht. done.
Qed.

Lemma compacted_compacted f :
  compacted (to_csv (compacted f)) = compacted f.
Proof.
  unfold compacted at 1.
  by rewrite prepare_compacted, final_records_compacted.
Qed.
End idempotent.

(** ** Compaction of a compacted store *)

(** C8.  A compaction run on what a compaction run wrote writes the same
    records, in the same order and with every field as it was, and reports
    that it removed none. *)
Theorem compaction_idempotent `{P : Pandas} {L : SortLaws P}
    {RT : RoundTripLaws P} (f : csv) (rep : Dedup.report) :
  Dedup.deduplicate_and_update (Some f) true = Some rep →
  ∃ rep',
    Dedup.deduplicate_and_update (Some (Dedup.written rep)) true = Some rep'
    ∧ Dedup.written rep' = Dedup.written rep
    ∧ Dedup.removed rep' = 0
    ∧ Dedup.saved rep' = Dedup.saved rep.
Proof.
  intros (Hw & _ & Hs & Hne)%deduplicate_and_update_Some.
  rewrite Hw, Hs. unfold Dedup.deduplicate_and_update.
  rewrite prepare_compacted, final_records_compacted.
  rewrite bool_decide_eq_false_2 by done.
  eexists. split; [done|]. simpl. fold (compacted f).
  split; [done|]. split; [lia|done].
Qed.

(** ** The theorems at the examples *)

Lemma tagger_without_marker_witness :
  Processor_tagger.extract_issue_from_filename "report.csv" = None
  ∧ (∀ df_src r,
       r ∈ Processor.normalize df_src (Processor.issue_cell "report.csv") →
       Issue r = NaN)
  ∧ V3_tagger.extract_issue_from_filename "report.csv" = "unknown issue".
Proof.
  apply (tagger_without_marker "report.csv").
  apply re_search_scan_None. reflexivity.
Defined.


Lemma normalization_admits_witness :
  folded ∅ ("2024-01-01-scan_ssl_weak.csv", Some scan_without_ip) = true
  ∧ ∀ t,
    t ∈ Processor.df_dest
          (Processor.process_file (P:=pandas_stable) ∅
             {| Processor.df_dest := []; Processor.newly_processed := [] |}
             ("2024-01-01-scan_ssl_weak.csv", Some scan_without_ip))
    ↔ t ∈ coerce_recurring_column (P:=pandas_stable) []
      ∨ ∃ r, r ∈ src_rows scan_without_ip
             ∧ has_mapped_value scan_without_ip r
             ∧ t = Processor.resolve_row
                     (coerce_recurring_column (P:=pandas_stable) [])
                     (stamped scan_without_ip
                        (Processor.issue_cell "2024-01-01-scan_ssl_weak.csv") r).
Proof.
  assert (folded ∅ ("2024-01-01-scan_ssl_weak.csv", Some scan_without_ip)
          = true) as Hfolded by (by vm_compute).
  split; [exact Hfolded|].
  exact (normalization_admits (P:=pandas_stable) ∅
           {| Processor.df_dest := []; Processor.newly_processed := [] |}
           "2024-01-01-scan_ssl_weak.csv" scan_without_ip Hfolded).
Defined.




Lemma removed_count_witness :
  ∃ rep,
    Dedup.deduplicate_and_update (P:=pandas_stable)
      (Some store_with_unkeyable) true = Some rep
    ∧ Dedup.removed rep
      = Z.of_nat (length store_with_unkeyable)
        - Z.of_nat (length (Dedup.written rep))
        - Z.of_nat (length (excluded (P:=pandas_stable) store_with_unkeyable)).
Proof.
  eexists. split; [vm_compute; reflexivity|].
  eapply (removed_count (P:=pandas_stable) (L:=stable_sort_laws)).
  vm_compute. reflexivity.
Defined.

Lemma compaction_idempotent_witness :
  ∃ rep rep',
    Dedup.deduplicate_and_update (P:=pandas_stable)
      (Some store_with_unkeyable) true = Some rep
    ∧ Dedup.deduplicate_and_update (P:=pandas_stable)
        (Some (Dedup.written rep)) true = Some rep'
    ∧ Dedup.written rep' = Dedup.written rep
    ∧ Dedup.removed rep' = 0
    ∧ Dedup.saved rep' = Dedup.saved rep.
Proof.
  assert (∃ rep, Dedup.deduplicate_and_update (P:=pandas_stable)
                   (Some store_with_unkeyable) true = Some rep) as [rep Hrep]
    by (eexists; vm_compute; reflexivity).
  destruct (compaction_idempotent (P:=pandas_stable) (L:=stable_sort_laws)
              (RT:=stable_round_trip) store_with_unkeyable rep Hrep)
    as (rep' & H').
  exists rep, rep'. split; [exact Hrep|exact H'].
Defined.

(** ** Where the code departs from the claims *)

(** C3 as stated fails: the row without an ip of a scan is written to the
    destination, with an empty IP. *)
Lemma row_without_ip_is_admitted :
  ∃ r,
    r ∈ store_rows
          (Processor.ingest (P:=pandas_stable) empty_world
             [("2024-01-01-scan_ssl_weak.csv", Some scan_without_ip)] io_ok)
    ∧ IP r = "" ∧ Timestamp r = "2024-01-01 00:00:00".
Proof.
  eexists. split; [vm_compute; apply list_elem_of_here|]. by vm_compute.
Qed.



(** C9 as stated fails: of three records one is written, and the run
    reports one record removed, not two. *)
Lemma removed_count_misses_excluded :
  ∃ rep,
    Dedup.deduplicate_and_update (P:=pandas_stable)
      (Some store_with_unkeyable) true = Some rep
    ∧ Dedup.removed rep = 1
    ∧ Z.of_nat (length store_with_unkeyable)
      - Z.of_nat (length (Dedup.written rep)) = 2.
Proof. eexists. split; [vm_compute; reflexivity|]. by vm_compute. Qed.

(** ** Texts as lists of characters *)

Lemma chars_inj (s1 s2 : string) : chars s1 = chars s2 → s1 = s2.
Proof.
  intros H. rewrite <- (string_of_list_ascii_of_string s1),
    <- (string_of_list_ascii_of_string s2). by rewrite H.
Qed.

Lemma chars_app (s1 s2 : string) : chars (s1 +:+ s2) = chars s1 ++ chars s2.
Proof.
  induction s1 as [|a s1 IH]; [done|]. rewrite append_cons. simpl. by rewrite IH.
Qed.

Lemma chars_rev_app (s1 s2 : string) :
  chars (String.rev_app s1 s2) = reverse (chars s1) ++ chars s2.
Proof.
  revert s2. induction s1 as [|a s1 IH]; intros s2; simpl; [done|].
  rewrite IH. simpl. by rewrite reverse_cons, <- app_assoc.
Qed.

Lemma chars_rev (s : string) : chars (String.rev s) = reverse (chars s).
Proof. unfold String.rev. by rewrite chars_rev_app, app_nil_r. Qed.

Lemma string_rev_involutive (s : string) : String.rev (String.rev s) = s.
Proof. apply chars_inj. by rewrite !chars_rev, reverse_involutive. Qed.

Lemma chars_lower (s : string) : chars (lower s) = lower_ascii <$> chars s.
Proof. induction s as [|a s IH]; simpl; [done|]. by rewrite IH. Qed.

Lemma chars_replace_underscore (s : string) :
  chars (replace_underscore s)
  = (λ a, if Ascii.eqb a "_" then " "%char else a) <$> chars s.
Proof. induction s as [|a s IH]; simpl; [done|]. by rewrite IH. Qed.

(** ** [strip] *)

Lemma lstrip_split (s : string) :
  ∃ sp, s = sp +:+ lstrip s ∧ ∀ a, a ∈ chars sp → is_space a = true.
Proof.
  induction s as [|a s (sp & Hs & Hsp)].
  { exists "". split; [done|]. intros a Ha. inversion Ha. }
  simpl. destruct (is_space a) eqn:Ha.
  - exists (String a sp). split; [by rewrite append_cons, <- Hs|].
    intros b [->|Hb]%elem_of_cons; auto.
  - exists "". split; [done|]. intros b Hb. inversion Hb.
Qed.

Lemma elem_of_chars_lstrip a (s : string) : a ∈ chars (lstrip s) → a ∈ chars s.
Proof.
  destruct (lstrip_split s) as (sp & Hs & _). intros Ha.
  rewrite Hs, chars_app, elem_of_app. by right.
Qed.

Lemma elem_of_chars_strip a (s : string) : a ∈ chars (strip s) → a ∈ chars s.
Proof.
  unfold strip. rewrite chars_rev, elem_of_reverse.
  intros Ha%elem_of_chars_lstrip. rewrite chars_rev, elem_of_reverse in Ha.
  by apply elem_of_chars_lstrip.
Qed.

Lemma lstrip_head a (s : string) :
  is_space a = false → lstrip (String a s) = String a s.
Proof. intros Ha. simpl. by rewrite Ha. Qed.

Lemma length_lstrip (s : string) :
  (String.length (lstrip s) ≤ String.length s)%nat.
Proof.
  induction s as [|a s IH]; simpl; [done|].
  destruct (is_space a); simpl; lia.
Qed.

Lemma lstrip_fixed_head a (s : string) :
  lstrip (String a s) = String a s → is_space a = false.
Proof.
  simpl. destruct (is_space a) eqn:Ha; [|done]. intros Heq.
  pose proof (length_lstrip s) as Hlen. rewrite Heq in Hlen. simpl in Hlen. lia.
Qed.

Lemma lstrip_idemp (s : string) : lstrip (lstrip s) = lstrip s.
Proof.
  induction s as [|a s IH]; simpl; [done|].
  destruct (is_space a) eqn:Ha; [done|]. by apply lstrip_head.
Qed.

(** What is left of a text without white space in front, once the white
    space behind it is taken away, has none in front either. *)
Lemma lstrip_rev_lstrip_rev (u : string) :
  lstrip u = u →
  lstrip (String.rev (lstrip (String.rev u))) = String.rev (lstrip (String.rev u)).
Proof.
  intros Hu. destruct (lstrip_split (String.rev u)) as (sp & Hs & _).
  set (v := lstrip (String.rev u)) in *.
  assert (u = String.rev v +:+ String.rev sp) as Hu'.
  { apply chars_inj. rewrite chars_app, !chars_rev, <- reverse_app, <- chars_app,
      <- Hs, chars_rev. by rewrite reverse_involutive. }
  destruct (String.rev v) as [|a t] eqn:Hv; [done|].
  apply lstrip_head. rewrite Hu' in Hu. simpl in Hu.
  by apply lstrip_fixed_head in Hu.
Qed.

Lemma strip_idemp (s : string) : strip (strip s) = strip s.
Proof.
  unfold strip.
  rewrite (lstrip_rev_lstrip_rev (lstrip s)) by apply lstrip_idemp.
  by rewrite string_rev_involutive, lstrip_idemp.
Qed.

Lemma is_space_lower_ascii a : is_space (lower_ascii a) = is_space a.
Proof. by destruct a as [[] [] [] [] [] [] [] []]. Qed.

Lemma lower_lstrip (s : string) : lower (lstrip s) = lstrip (lower s).
Proof.
  induction s as [|a s IH]; simpl; [done|].
  rewrite is_space_lower_ascii. by destruct (is_space a).
Qed.

Lemma lower_rev (s : string) : lower (String.rev s) = String.rev (lower s).
Proof.
  apply chars_inj. by rewrite chars_lower, !chars_rev, chars_lower, fmap_reverse.
Qed.

Lemma lower_strip (s : string) : lower (strip s) = strip (lower s).
Proof. unfold strip. by rewrite lower_rev, lower_lstrip, lower_rev, lower_lstrip. Qed.

Lemma strip_clean_label (g : string) : strip (clean_label g) = clean_label g.
Proof. unfold clean_label. by rewrite <- lower_strip, strip_idemp. Qed.

Lemma elem_of_chars_clean_label a (g : string) :
  a ∈ chars (clean_label g) →
  ∃ b, b ∈ chars g
       ∧ a = lower_ascii (if Ascii.eqb b "_" then " "%char else b).
Proof.
  unfold clean_label. rewrite chars_lower. intros (c & -> & Hc)%list_elem_of_fmap.
  apply elem_of_chars_strip in Hc. rewrite chars_replace_underscore in Hc.
  apply list_elem_of_fmap in Hc as (b & -> & Hb). by exists b.
Qed.

Lemma clean_char_shape b :
  let a := lower_ascii (if Ascii.eqb b "_" then " "%char else b) in
  a ≠ "_"%char ∧ is_upper a = false
  ∧ (b ≠ "-"%char → a ≠ "-"%char) ∧ (b ≠ "."%char → a ≠ "."%char).
Proof.
  destruct b as [[] [] [] [] [] [] [] []]; cbv; repeat split; congruence.
Qed.

(** ** The regular expression *)

Lemma token_split (s : string) :
  ∃ rest, s = token s +:+ rest
    ∧ (rest = "" ∨ ∃ c rest', rest = String c rest' ∧ is_sep c = true).
Proof.
  induction s as [|a s (rest & Hs & Hrest)].
  { exists "". split; [done|by left]. }
  simpl. destruct (is_sep a) eqn:Ha.
  - exists (String a s). split; [done|]. right. by exists a, s.
  - exists rest. split; [by rewrite append_cons, <- Hs|done].
Qed.

Lemma elem_of_chars_token a (s : string) :
  a ∈ chars (token s) → is_sep a = false.
Proof.
  induction s as [|b s IH]; simpl; [by intros ?%elem_of_nil|].
  destruct (is_sep b) eqn:Hb; simpl; [by intros ?%elem_of_nil|].
  intros [->|?]%elem_of_cons; auto.
Qed.

Lemma match_scan_at_Some s g :
  match_scan_at s = Some g →
  g = token g ∧ g ≠ "" ∧ ∃ rest, s = "scan_" +:+ g +:+ rest
    ∧ (rest = "" ∨ ∃ c rest', rest = String c rest' ∧ is_sep c = true).
Proof.
  unfold match_scan_at. destruct (drop_prefix "scan_" s) as [r|] eqn:Hd; [|done].
  apply drop_prefix_Some in Hd as ->.
  destruct (token r) as [|a t] eqn:Ht; [done|]. intros [= <-].
  destruct (token_split r) as (rest & Hr & Hrest). rewrite Ht in Hr.
  split; [|split; [done|]].
  - rewrite <- Ht. clear. induction r as [|b r IH]; simpl; [done|].
    destruct (is_sep b) eqn:Hb; simpl; [done|]. by rewrite Hb, <- IH.
  - exists rest. by rewrite <- Hr.
Qed.

Lemma re_search_scan_token s g :
  re_search_scan s = Some g → g = token g ∧ g ≠ "".
Proof.
  induction s as [|a s IH]; [by cbn|].
  cbn [re_search_scan]. destruct (match_scan_at (String a s)) as [g'|] eqn:Hm.
  - intros [= ->]. apply match_scan_at_Some in Hm. tauto.
  - apply IH.
Qed.

Lemma token_before_rest g rest :
  (∀ a, a ∈ chars g → is_sep a = false) →
  rest = "" ∨ (∃ c rest', rest = String c rest' ∧ is_sep c = true) →
  token (g +:+ rest) = g.
Proof.
  intros Hg Hrest. induction g as [|a g IH].
  - rewrite append_nil_l. apply token_empty.
    destruct Hrest as [->|?]; [by left|by right].
  - rewrite append_cons. cbn [token]. rewrite (Hg a ltac:(left)).
    rewrite IH; [done|]. intros c Hc. apply Hg. by right.
Qed.

Lemma re_search_scan_at s g :
  match_scan_at s = Some g → re_search_scan s = Some g.
Proof. intros Hm. destruct s; cbn [re_search_scan]; by rewrite Hm. Qed.

(** X1.  What [re.search(r'scan_([^-.]+)', s)] returns is the token of
    the leftmost marker of [s], and every such token is found: the name is
    some text, [scan_], the token and a rest; the token is not empty and has
    neither [-] nor [.]; the rest is empty or begins with [-] or [.], so the
    token is the longest one; and the pattern matches at no earlier
    position. *)
Theorem re_search_scan_leftmost_token (s g : string) :
  re_search_scan s = Some g ↔ leftmost_token s g.
Proof.
  unfold leftmost_token. split.
  - revert g. induction s as [|a s IH]; intros g.
    { by cbn. }
    cbn [re_search_scan].
    destruct (match_scan_at (String a s)) as [g'|] eqn:Hm.
    + intros [= ->].
      apply match_scan_at_Some in Hm as (Htok & Hne & rest & Hs & Hrest).
      exists "", rest. rewrite append_nil_l. split; [done|]. split; [done|].
      split; [|split; [done|]].
      * intros b Hb. rewrite Htok in Hb. by apply elem_of_chars_token in Hb.
      * intros p1 b p2 Hp. destruct p1; discriminate.
    + intros Hg.
      destruct (IH _ Hg) as (pre & rest & -> & Hne & Hg' & Hrest & Hleft).
      exists (String a pre), rest. rewrite append_cons. split; [done|].
      split; [done|]. split; [done|]. split; [done|].
      intros p1 b p2 Hp. destruct p1 as [|c p1].
      * rewrite append_nil_l in Hp. injection Hp as <- <-.
        by rewrite append_cons.
      * rewrite append_cons in Hp. injection Hp as _ ->. by eapply Hleft.
  - intros (pre & rest & -> & Hne & Hg & Hrest & Hleft).
    induction pre as [|a pre IH].
    + rewrite append_nil_l. apply re_search_scan_at. unfold match_scan_at.
      rewrite (proj2 (drop_prefix_Some "scan_" _ (g +:+ rest)) eq_refl).
      rewrite (token_before_rest _ _ Hg Hrest). by destruct g.
    + rewrite append_cons. cbn [re_search_scan]. rewrite <- append_cons.
      rewrite (Hleft "" a pre eq_refl). apply IH.
      intros p1 b p2 ->. apply (Hleft (String a p1)). by rewrite append_cons.
Qed.

(** ** The label of a file *)

(** X2.  Whenever the tagger of the processor finds a marker, the tagger of
    the command-line script returns the same label, and the label is in
    normal form: [strip] leaves it as it is (no white space in front or
    behind), and it has no underscore, no [-], no [.] and no ASCII capital. *)
Theorem label_is_normalised (filename label : string) :
  Processor_tagger.extract_issue_from_filename filename = Some label →
  V3_tagger.extract_issue_from_filename filename = label ∧ normalised label.
Proof.
  unfold Processor_tagger.extract_issue_from_filename,
    V3_tagger.extract_issue_from_filename, normalised.
  destruct (re_search_scan filename) as [g|] eqn:Hg; [|done]. intros [= <-].
  split; [done|]. split; [apply strip_clean_label|].
  destruct (re_search_scan_token filename g Hg) as [Htok _].
  intros a (b & Hb & ->)%elem_of_chars_clean_label.
  rewrite Htok in Hb. pose proof (elem_of_chars_token _ _ Hb) as Hsep.
  destruct (clean_char_shape b) as (H1 & H2 & H3 & H4).
  split; [done|]. split; [|done].
  unfold is_sep in *. apply orb_false_iff in Hsep as [Hd Hp].
  apply Ascii.eqb_neq in Hd, Hp. apply orb_false_iff.
  split; apply Ascii.eqb_neq; auto.
Qed.

(** ** More on the loop of the processor *)

Section ingest_more.
Context `{P : Pandas}.

Lemma foldl_filter_folded pf st listing :
  foldl (Processor.process_file pf) st
    (filter (λ entry, folded pf entry) listing)
  = foldl (Processor.process_file pf) st listing.
Proof.
  revert st. induction listing as [|entry listing IH]; intros st; [done|].
  destruct (folded pf entry) eqn:Hf.
  - rewrite filter_cons_True by (apply Is_true_true, Hf). simpl. apply IH.
  - rewrite filter_cons_False by (apply Is_true_false, Hf). simpl.
    rewrite (process_file_not_folded _ _ _ Hf). apply IH.
Qed.

Lemma length_coerce_recurring_column df :
  length (coerce_recurring_column df) = length df.
Proof. unfold coerce_recurring_column. by rewrite length_fmap. Qed.

Lemma length_normalize df_src issue :
  length (Processor.normalize df_src issue)
  = length (filter (λ r, Processor.has_value df_src r) (src_rows df_src)).
Proof. unfold Processor.normalize. by rewrite length_fmap. Qed.

Lemma length_df_dest_foldl pf st listing :
  length (Processor.df_dest (foldl (Processor.process_file pf) st listing))
  = (length (Processor.df_dest st)
     + sum_list (rows_admitted <$> filter (λ entry, folded pf entry) listing))%nat.
Proof.
  revert st. induction listing as [|entry listing IH]; intros st; simpl.
  { lia. }
  rewrite IH. destruct (folded pf entry) eqn:Hf.
  - rewrite filter_cons_True by (apply Is_true_true, Hf).
    destruct entry as [filename contents].
    destruct (folded_Some _ _ Hf) as [df_src Hc]. simpl in Hc. subst.
    rewrite (process_file_folded _ _ _ _ Hf). cbn [Processor.df_dest].
    rewrite length_app, length_fmap, length_coerce_recurring_column.
    rewrite length_normalize, fmap_cons. cbn [sum_list_with].
    unfold rows_admitted at 2. cbn [snd]. unfold id. lia.
  - rewrite filter_cons_False by (apply Is_true_false, Hf).
    by rewrite (process_file_not_folded _ _ _ Hf).
Qed.

(** A property of the destination frame that every folded file keeps is
    kept by the loop. *)
Lemma foldl_process_file_invariant (Inv : frame → Prop) pf :
  (∀ dest filename df_src,
     folded pf (filename, Some df_src) = true → Inv dest →
     Inv ((Processor.resolve_row (coerce_recurring_column dest)
             <$> Processor.normalize df_src (Processor.issue_cell filename))
          ++ coerce_recurring_column dest)) →
  ∀ listing st,
    Inv (Processor.df_dest st) →
    Inv (Processor.df_dest (foldl (Processor.process_file pf) st listing)).
Proof.
  intros Hstep listing. induction listing as [|entry listing IH];
    intros st Hst; [done|]. simpl. apply IH.
  destruct (folded pf entry) eqn:Hf.
  - destruct entry as [filename contents].
    destruct (folded_Some _ _ Hf) as [df_src Hc]. simpl in Hc. subst.
    rewrite (process_file_folded _ _ _ _ Hf). simpl. by apply Hstep.
  - by rewrite (process_file_not_folded _ _ _ Hf).
Qed.

Lemma Timestamp_resolve_row dest r :
  Timestamp (Processor.resolve_row dest r) = Timestamp r.
Proof. unfold Processor.resolve_row. by destruct (series_max _). Qed.

Lemma Timestamp_normalize df_src issue r :
  r ∈ Processor.normalize df_src issue →
  Timestamp r = NaN ∨ is_text (Timestamp r).
Proof.
  intros (r0 & _ & _ & ->)%elem_of_normalize.
  change (Timestamp (stamped df_src issue r0))
    with (Processor.temp_cell df_src r0 "Timestamp").
  unfold Processor.temp_cell.
  destruct (Processor.source_column "Timestamp") as [col|];
    [|right; by eexists].
  destruct (bool_decide _); [|right; by eexists].
  unfold Processor.src_cell. destruct (r0 !! col); [right; by eexists|by left].
Qed.

Lemma Timestamp_load_destination w r :
  r ∈ Processor.load_destination w →
  Timestamp r = NaN ∨ is_text (Timestamp r).
Proof.
  unfold Processor.load_destination, read_csv.
  intros (r1 & -> & (r0 & -> & _)%list_elem_of_fmap)%list_elem_of_fmap.
  change (strip_cell (read_csv_cell (Timestamp r0)) = NaN
          ∨ is_text (strip_cell (read_csv_cell (Timestamp r0)))).
  destruct (read_csv_cell_cases (Timestamp r0)) as [->|[-> _]];
    [by left|right; by eexists].
Qed.

Lemma Timestamp_run_loop w listing r :
  r ∈ Processor.df_dest (Processor.run_loop w listing) →
  Timestamp r = NaN ∨ is_text (Timestamp r).
Proof.
  revert r. unfold Processor.run_loop.
  apply (foldl_process_file_invariant
           (λ df, ∀ r, r ∈ df → Timestamp r = NaN ∨ is_text (Timestamp r))).
  - intros dest filename df_src _ Hdest r.
    rewrite elem_of_app, list_elem_of_fmap.
    intros [(x & -> & Hx)|(x & -> & Hx)%list_elem_of_fmap].
    + rewrite Timestamp_resolve_row. by eapply Timestamp_normalize.
    + exact (Hdest x Hx).
  - intros r. apply Timestamp_load_destination.
Qed.
End ingest_more.

(** ** What a run of the processor does to the store and the log *)

Lemma folded_true pf entry :
  folded pf entry = true →
(entry.1 ∉ pf)
  ∧ (endswith entry.1 ".csv" = true ∨ endswith entry.1 ".xlsx" = true)
  ∧ ∃ df_src, entry.2 = Some df_src.
Proof.
  intros Hf. split; [|split].
  - intros Hin. by rewrite (folded_in_ledger _ _ Hin) in Hf.
  - unfold folded in Hf. rewrite !andb_true_iff in Hf.
    destruct Hf as [[Hext _] _]. by apply orb_true_iff.
  - by eapply folded_Some.
Qed.

Lemma to_csv_strip_read `{P : Pandas} s :
  to_csv_cell (strip_cell (read_csv_cell s)) = reread s.
Proof. unfold reread, read_csv_cell. by case_bool_decide. Qed.

Lemma rewritten_loaded `{P : Pandas} (r0 : row string) :
  map_row to_csv_cell
    (set_Timestamp
       (to_datetime (Timestamp (map_row strip_cell (map_row read_csv_cell r0))))
       (map_row strip_cell (map_row read_csv_cell r0)))
  = rewritten r0.
Proof.
  apply row_eq; try exact (to_csv_strip_read _).
  change (to_csv_cell (to_datetime (strip_cell (read_csv_cell (Timestamp r0))))
          = reread_time (Timestamp r0)).
  unfold reread_time, read_csv_cell. case_bool_decide; [done|].
  cbn [strip_cell to_datetime]. by destruct (to_datetime_text _).
Qed.

Lemma to_csv_load_destination `{P : Pandas} w :
  to_csv (to_datetime_column (Processor.load_destination w))
  = rewritten <$> store_rows w.
Proof.
  unfold to_csv, to_datetime_column, Processor.load_destination, read_csv.
  rewrite <- !list_fmap_compose. apply list_fmap_ext. intros _ r0 _.
  apply rewritten_loaded.
Qed.

Lemma resolve_row_empty r : Processor.resolve_row [] r = r.
Proof. done. Qed.



Section counters.
Context `{P : Pandas}.



(** Once a file was folded in, the whole column holds integers. *)
Lemma integers_foldl pf listing st :
  filter (λ entry, folded pf entry) listing ≠ [] →
  ∀ r, r ∈ Processor.df_dest (foldl (Processor.process_file pf) st listing) →
       ∃ n, Recurring_Issue r = Int n.
Proof.
  revert st. induction listing as [|entry listing IH]; intros st; [done|].
  destruct (folded pf entry) eqn:Hf.
  - intros _. simpl.
    apply (foldl_process_file_invariant
             (λ df, ∀ r, r ∈ df → ∃ n, Recurring_Issue r = Int n)).
    + intros dest filename df_src _ _ r.
      rewrite elem_of_app, list_elem_of_fmap.
      intros [(x & -> & Hx)|Hr]; [|by eapply coerce_recurring_column_Int].
      apply normalize_Recurring_Issue in Hx.
      unfold Processor.resolve_row. destruct (series_max _); [by eexists|].
      by exists 0.
    + destruct entry as [filename contents].
      destruct (folded_Some _ _ Hf) as [df_src Hc]. simpl in Hc. subst.
      rewrite (process_file_folded _ _ _ _ Hf). cbn [Processor.df_dest].
      intros r. rewrite elem_of_app, list_elem_of_fmap.
      intros [(x & -> & Hx)|Hr]; [|by eapply coerce_recurring_column_Int].
      apply normalize_Recurring_Issue in Hx.
      unfold Processor.resolve_row. destruct (series_max _); [by eexists|].
      by exists 0.
  - rewrite filter_cons_False by (apply Is_true_false, Hf). simpl.
    rewrite (process_file_not_folded _ _ _ Hf). apply IH.
Qed.
End counters.

Section run_lengths.
Context `{P : Pandas} {L : SortLaws P}.

Lemma length_final_frame w listing :
  length (Processor.final_frame w listing)
  = (length (store_rows w)
     + sum_list (rows_admitted
                   <$> filter (λ entry,
                                 folded (Processor.load_processed_files w) entry)
                         listing))%nat.
Proof.
  unfold Processor.final_frame, to_datetime_column.
  rewrite length_sort_values_desc, length_fmap.
  unfold Processor.run_loop. rewrite length_df_dest_foldl. simpl.
  unfold Processor.load_destination, read_csv. by rewrite !length_fmap.
Qed.

Lemma store_rows_ingest w listing io :
  store_write_ok io = true →
  store_rows (Processor.ingest w listing io)
  = to_csv (Processor.final_frame w listing).
Proof. intros Hok. unfold Processor.ingest, store_rows. simpl. by rewrite Hok. Qed.
End run_lengths.

Lemma run_loop_filter_folded `{P : Pandas} w listing :
  Processor.run_loop w
    (filter (λ entry, folded (Processor.load_processed_files w) entry) listing)
  = Processor.run_loop w listing.
Proof. unfold Processor.run_loop. by rewrite foldl_filter_folded. Qed.

(** X3.  A run that saves the store adds to it exactly the admitted rows of
    the files it folds in: no stored record is dropped and no row of a
    folded file is merged into another. *)
Theorem ingest_record_count `{P : Pandas} {L : SortLaws P} (w : world)
    (listing : list (string * option src_frame)) (io : io_outcome) :
  store_write_ok io = true →
  length (store_rows (Processor.ingest w listing io))
  = (length (store_rows w)
     + sum_list (rows_admitted
                   <$> filter (λ entry, folded (Processor.load_processed_files w) entry)
                         listing))%nat.
Proof.
  intros Hok. rewrite (store_rows_ingest _ _ _ Hok). unfold to_csv.
  by rewrite length_fmap, length_final_frame.
Qed.

(** X4.  The files a run skips (wrong extension, named in the log,
    unreadable, without a mapped column or without a usable row) have no
    influence on what the run writes: the run over the whole listing equals
    the run over the files it folds in. *)
Theorem ingest_ignores_skipped `{P : Pandas} (w : world)
    (listing : list (string * option src_frame)) (io : io_outcome) :
  Processor.ingest w
    (filter (λ entry, folded (Processor.load_processed_files w) entry) listing) io
  = Processor.ingest w listing io.
Proof.
  unfold Processor.ingest, Processor.final_frame.
  by rewrite run_loop_filter_folded.
Qed.

(** X5.  The log only grows, and only by files of this run: whatever the
    outcome of the writes, the log after a run is the log before it followed
    by names that were not in it, end in [.csv] or [.xlsx] and belong to
    files of the listing that could be read. *)
Theorem ledger_grows_by_new_files `{P : Pandas} (w : world)
    (listing : list (string * option src_frame)) (io : io_outcome) :
  ∃ added,
    ledger_lines (Processor.ingest w listing io) = ledger_lines w ++ added
    ∧ ∀ name, name ∈ added →
        (name ∉ ledger_lines w)
        ∧ (endswith name ".csv" = true ∨ endswith name ".xlsx" = true)
        ∧ ∃ df_src, (name, Some df_src) ∈ listing.
Proof.
  destruct (ledger_write_ok io) eqn:Hok.
  - eexists. split; [by apply ledger_lines_ingest|].
    intros name (entry & -> & Hin)%list_elem_of_fmap.
    apply list_elem_of_filter in Hin as [Hf%Is_true_true Hin].
    apply folded_true in Hf as (Hnew & Hext & df_src & Hc).
    split; [|split; [done|]].
    + intros Hl. apply Hnew. unfold Processor.load_processed_files.
      by apply elem_of_list_to_set.
    + exists df_src. destruct entry as [filename contents]. simpl in *. by subst.
  - exists []. split; [|by intros name ?%elem_of_nil].
    rewrite app_nil_r. unfold Processor.ingest, ledger_lines at 1. simpl.
    rewrite Hok. by destruct (Processor.newly_processed _).
Qed.


(** X7.  When the log cannot be written and the store can, the next run
    over the same directory folds the same files in again: the log is as
    before the first run, the second run marks the files the first one
    marked, and the store holds their admitted rows twice. *)
Theorem failed_log_write_folds_again `{P : Pandas} {L : SortLaws P} (w : world)
    (listing : list (string * option src_frame)) (io1 io2 : io_outcome) :
  ledger_write_ok io1 = false →
  store_write_ok io1 = true → store_write_ok io2 = true →
  ledger_file (Processor.ingest w listing io1) = ledger_file w
  ∧ Processor.newly_processed
      (Processor.run_loop (Processor.ingest w listing io1) listing)
    = Processor.newly_processed (Processor.run_loop w listing)
  ∧ length (store_rows
              (Processor.ingest (Processor.ingest w listing io1) listing io2))
    = (length (store_rows w)
       + 2 * sum_list (rows_admitted
                         <$> filter (λ entry,
                                       folded (Processor.load_processed_files w) entry)
                               listing))%nat.
Proof.
  intros Hlog Hs1 Hs2.
  assert (ledger_file (Processor.ingest w listing io1) = ledger_file w) as Hsame.
  { unfold Processor.ingest. simpl. rewrite Hlog.
    by destruct (Processor.newly_processed _). }
  assert (Processor.load_processed_files (Processor.ingest w listing io1)
          = Processor.load_processed_files w) as Hpf.
  { unfold Processor.load_processed_files, ledger_lines. by rewrite Hsame. }
  split; [done|]. split.
  - unfold Processor.run_loop. rewrite !newly_processed_foldl. by rewrite Hpf.
  - rewrite (store_rows_ingest _ _ _ Hs2). unfold to_csv.
    rewrite length_fmap, length_final_frame, Hpf.
    rewrite (store_rows_ingest _ _ _ Hs1). unfold to_csv.
    rewrite length_fmap, length_final_frame. lia.
Qed.

(** X8.  A run that finds nothing to fold in still rewrites the store.  The
    log is untouched; the store holds the records it held, in an order the
    sort decides, each field stripped of white space around it and emptied
    when it was a missing-value marker of [read_csv] (NA, null, None, ...),
    each timestamp in the rendering of pandas, or empty when it could not be
    parsed.  Recurring Issue is written back as the text that was read, also
    when it is not a number. *)
Theorem run_without_new_file `{P : Pandas} {L : SortLaws P} (w : world)
    (listing : list (string * option src_frame)) (io : io_outcome) :
  (∀ entry, entry ∈ listing →
            folded (Processor.load_processed_files w) entry = false) →
  store_write_ok io = true →
  ledger_file (Processor.ingest w listing io) = ledger_file w
  ∧ store_rows (Processor.ingest w listing io) ≡ₚ rewritten <$> store_rows w.
Proof.
  intros Hskip Hok.
  assert (Processor.run_loop w listing
          = {| Processor.df_dest := Processor.load_destination w;
               Processor.newly_processed := [] |}) as Hloop.
  { unfold Processor.run_loop. by apply foldl_not_folded. }
  unfold Processor.ingest, Processor.final_frame. rewrite Hloop. simpl.
  split; [done|]. rewrite Hok. unfold store_rows at 1. simpl.
  rewrite <- to_csv_load_destination. unfold to_csv.
  apply fmap_Permutation, sort_values_desc_Permutation.
Qed.

(** X9.  What a run writes into the two columns it computes.  Every
    timestamp of the written store is empty or the rendering of a time that
    [to_datetime] read from a text, so a text that is not a time does not
    survive a run; and once a file was folded in, every Recurring Issue of
    the written store is a rendered integer. *)
Theorem written_fields_canonical `{P : Pandas} {L : SortLaws P} (w : world)
    (listing : list (string * option src_frame)) (io : io_outcome) :
  store_write_ok io = true →
  ∀ r, r ∈ store_rows (Processor.ingest w listing io) →
    (Timestamp r = ""
     ∨ ∃ s t, to_datetime_text s = Some t ∧ Timestamp r = render_datetime t)
    ∧ (filter (λ entry, folded (Processor.load_processed_files w) entry) listing
         ≠ [] →
       ∃ n, Recurring_Issue r = render_int n).
Proof.
  intros Hok r. rewrite (store_rows_ingest _ _ _ Hok).
  unfold to_csv, Processor.final_frame.
  intros (x & -> & Hx)%list_elem_of_fmap.
  apply (proj1 (elem_of_sort_values_desc _ _)) in Hx.
  apply list_elem_of_fmap in Hx as (y & -> & Hy). split.
  - change (to_csv_cell (to_datetime (Timestamp y)) = ""
            ∨ ∃ s t, to_datetime_text s = Some t
                     ∧ to_csv_cell (to_datetime (Timestamp y)) = render_datetime t).
    destruct (Timestamp_run_loop _ _ _ Hy) as [->|[s ->]]; [by left|].
    cbn [to_datetime]. destruct (to_datetime_text s) as [t|] eqn:Hs; [|by left].
    right. by exists s, t.
  - intros Hne. destruct (integers_foldl _ _ _ Hne _ Hy) as [n Hn].
    exists n. change (to_csv_cell (Recurring_Issue y) = render_int n).
    by rewrite Hn.
Qed.

(** X10.  Into an empty store the first file brings only zeros: the rows of
    one file are resolved against the store as it was before the file, never
    against each other, so a finding that the file holds at several times
    is written with Recurring Issue 0 each time. *)
Theorem first_file_counts_nothing `{P : Pandas} {L : SortLaws P} (w : world)
    (listing : list (string * option src_frame))
    (entry : string * option src_frame) (io : io_outcome) :
  store_rows w = [] →
  filter (λ e, folded (Processor.load_processed_files w) e) listing = [entry] →
  store_write_ok io = true →
  ∀ r, r ∈ store_rows (Processor.ingest w listing io) →
       Recurring_Issue r = render_int 0.
Proof.
  intros Hempty Hone Hok r.
  assert (folded (Processor.load_processed_files w) entry = true) as Hf.
  { apply Is_true_true.
    eapply (proj1 (list_elem_of_filter
                     (λ e, folded (Processor.load_processed_files w) e) listing entry)).
    rewrite Hone. left. }
  destruct entry as [filename contents].
  destruct (folded_Some _ _ Hf) as [df_src Hc]. simpl in Hc. subst.
  rewrite (store_rows_ingest _ _ _ Hok).
  unfold to_csv, Processor.final_frame.
  rewrite <- run_loop_filter_folded, Hone. unfold Processor.run_loop.
  intros (x & -> & Hx)%list_elem_of_fmap.
  apply (proj1 (elem_of_sort_values_desc _ _)) in Hx.
  apply list_elem_of_fmap in Hx as (y & -> & Hy).
  cbn [foldl] in Hy. rewrite (process_file_folded _ _ _ _ Hf) in Hy.
  cbn [Processor.df_dest] in Hy.
  unfold Processor.load_destination in Hy. rewrite Hempty in Hy.
  cbn in Hy. rewrite app_nil_r in Hy.
  apply list_elem_of_fmap in Hy as (z & -> & Hz).
  rewrite resolve_row_empty.
  change (to_csv_cell (Recurring_Issue z) = render_int 0).
  by rewrite (normalize_Recurring_Issue _ _ _ Hz).
Qed.


(** ** The stored records through a run *)

Section survive.
Context `{P : Pandas}.

(** The loop puts new rows in front of the loaded records and changes
    nothing of these but Recurring Issue. *)
Lemma foldl_keeps_loaded pf listing st (loaded : frame) :
  (∃ added olds,
     Processor.df_dest st = added ++ olds
     ∧ Forall2 (λ y0 y, set_Recurring_Issue NaN y = set_Recurring_Issue NaN y0)
         loaded olds) →
  ∃ added olds,
    Processor.df_dest (foldl (Processor.process_file pf) st listing)
    = added ++ olds
    ∧ Forall2 (λ y0 y, set_Recurring_Issue NaN y = set_Recurring_Issue NaN y0)
        loaded olds.
Proof.
  apply (foldl_process_file_invariant
           (λ df, ∃ added olds,
              df = added ++ olds
              ∧ Forall2 (λ y0 y, set_Recurring_Issue NaN y
                                 = set_Recurring_Issue NaN y0) loaded olds)).
  intros dest filename df_src _ (added & olds & -> & Hall).
  eexists (_ ++ coerce_recurring_column added), (coerce_recurring_column olds).
  split.
  - unfold coerce_recurring_column. by rewrite fmap_app, app_assoc.
  - unfold coerce_recurring_column. apply Forall2_fmap_r.
    eapply Forall2_impl; [exact Hall|]. intros y0 y Hy. exact Hy.
Qed.

Lemma written_loaded_row y y0 :
  set_Recurring_Issue NaN y = set_Recurring_Issue NaN y0 →
  set_Recurring_Issue ""
    (map_row to_csv_cell (set_Timestamp (to_datetime (Timestamp y)) y))
  = set_Recurring_Issue ""
      (map_row to_csv_cell (set_Timestamp (to_datetime (Timestamp y0)) y0)).
Proof.
  intros Hy.
  change (set_Recurring_Issue ""
            (map_row to_csv_cell
               (set_Timestamp
                  (to_datetime (Timestamp (set_Recurring_Issue NaN y)))
                  (set_Recurring_Issue NaN y)))
          = set_Recurring_Issue ""
              (map_row to_csv_cell
                 (set_Timestamp
                    (to_datetime (Timestamp (set_Recurring_Issue NaN y0)))
                    (set_Recurring_Issue NaN y0)))).
  by rewrite Hy.
Qed.
End survive.

(** X12.  No stored record is lost or merged by a run.  The written store
    is, up to the order the sort gives it, the new rows followed by the
    records the store held, one for one; and each of these is the record
    as a run rewrites it (fields stripped, missing-value markers emptied,
    the timestamp rendered anew) in every column but Recurring Issue. *)
Theorem stored_records_survive `{P : Pandas} {L : SortLaws P} (w : world)
    (listing : list (string * option src_frame)) (io : io_outcome) :
  store_write_ok io = true →
  ∃ added olds,
    store_rows (Processor.ingest w listing io) ≡ₚ added ++ olds
    ∧ Forall2 (λ r0 r, set_Recurring_Issue "" r
                       = set_Recurring_Issue "" (rewritten r0))
        (store_rows w) olds.
Proof.
  intros Hok. rewrite (store_rows_ingest _ _ _ Hok).
  unfold Processor.final_frame, Processor.run_loop.
  destruct (foldl_keeps_loaded (Processor.load_processed_files w) listing
              {| Processor.df_dest := Processor.load_destination w;
                 Processor.newly_processed := [] |}
              (Processor.load_destination w))
    as (added & olds & -> & Hall).
  { exists [], (Processor.load_destination w). split; [done|].
    apply Forall2_same_length_lookup_2; [done|].
    intros i y0 y H0 H1. congruence. }
  exists (to_csv (to_datetime_column added)), (to_csv (to_datetime_column olds)).
  split.
  - unfold to_csv, to_datetime_column.
    rewrite sort_values_desc_Permutation. by rewrite !fmap_app.
  - unfold to_csv, to_datetime_column. rewrite <- list_fmap_compose.
    apply Forall2_fmap_r.
    unfold Processor.load_destination, read_csv in Hall.
    rewrite <- list_fmap_compose in Hall. apply Forall2_fmap_l in Hall.
    eapply Forall2_impl; [exact Hall|].
    intros r0 y Hy. cbn [compose] in *.
    rewrite <- rewritten_loaded. by apply written_loaded_row.
Qed.

(** ** [script_V3.0.py] at module level: the log *)

Section v3_more.
Context `{P : Pandas}.

Lemma V3_process_file_skip ok pf st entry :
  folded_V3 pf entry = false → V3.process_file ok pf st entry = Some st.
Proof.
  destruct entry as [file contents].
  unfold folded_V3, V3.process_file. simpl.
  destruct (endswith file ".csv" || endswith file ".xlsx"); simpl; [|done].
  destruct (bool_decide (file ∈ pf)); simpl; [done|].
  destruct contents as [df|]; [|done].
  by destruct (bool_decide (V3.filtered_columns df = [] ∨ src_rows df = [])).
Qed.

Lemma V3_process_file_raises pf st entry :
  folded_V3 pf entry = true → V3.process_file false pf st entry = None.
Proof.
  destruct entry as [file contents].
  unfold folded_V3, V3.process_file. simpl.
  destruct (endswith file ".csv" || endswith file ".xlsx"); simpl; [|done].
  destruct (bool_decide (file ∈ pf)); simpl; [done|].
  destruct contents as [df|]; [|done].
  by destruct (bool_decide (V3.filtered_columns df = [] ∨ src_rows df = [])).
Qed.

Lemma V3_foldl_None ok pf listing :
  foldl (λ acc entry, st ← acc; V3.process_file ok pf st entry) None listing
  = None.
Proof. induction listing as [|entry listing IH]; [done|]. simpl. apply IH. Qed.


Lemma V3_foldl_raises pf st listing :
  (∃ entry, entry ∈ listing ∧ folded_V3 pf entry = true) →
  foldl (λ acc entry, st ← acc; V3.process_file false pf st entry)
    (Some st) listing = None.
Proof.
  induction listing as [|entry listing IH]; intros (e & He & Hf).
  { by apply elem_of_nil in He. }
  simpl. destruct (folded_V3 pf entry) eqn:Hentry.
  - rewrite (V3_process_file_raises _ _ _ Hentry). apply V3_foldl_None.
  - rewrite (V3_process_file_skip _ _ _ _ Hentry). apply IH.
    apply elem_of_cons in He as [->|He]; [congruence|]. by exists e.
Qed.


Lemma V3_foldl_length pf listing st :
  ∃ st',
    foldl (λ acc entry, st ← acc; V3.process_file true pf st entry)
      (Some st) listing = Some st'
    ∧ length (V3.df_dest st')
      = (length (V3.df_dest st)
         + sum_list (rows_read <$> filter (λ entry, folded_V3 pf entry) listing))%nat.
Proof.
  revert st. induction listing as [|entry listing IH]; intros st; simpl.
  { exists st. split; [done|]. lia. }
  destruct (folded_V3 pf entry) eqn:Hf.
  - rewrite filter_cons_True by (apply Is_true_true, Hf).
    destruct entry as [file contents].
    assert (∃ df, contents = Some df
              ∧ V3.process_file true pf st (file, contents)
                = Some {| V3.df_dest :=
                            (Processor.resolve_row
                               (coerce_recurring_column (V3.df_dest st))
                               <$> V3.normalize df file)
                            ++ coerce_recurring_column (V3.df_dest st);
                          V3.processed_log :=
                            Some (default [] (V3.processed_log st) ++ [file]) |})
      as (df & -> & ->).
    { unfold folded_V3 in Hf. unfold V3.process_file. simpl in *.
      destruct (endswith file ".csv" || endswith file ".xlsx"); [|done].
      destruct (bool_decide (file ∈ pf)); [done|].
      destruct contents as [df|]; [|done]. exists df. split; [done|].
      by destruct (bool_decide (V3.filtered_columns df = [] ∨ src_rows df = [])). }
    destruct (IH {| V3.df_dest :=
                      (Processor.resolve_row
                         (coerce_recurring_column (V3.df_dest st))
                         <$> V3.normalize df file)
                      ++ coerce_recurring_column (V3.df_dest st);
                    V3.processed_log :=
                      Some (default [] (V3.processed_log st) ++ [file]) |})
      as (st' & Hst' & Hlen).
    exists st'. split; [exact Hst'|]. rewrite Hlen. cbn [V3.df_dest].
    rewrite length_app, length_fmap, length_coerce_recurring_column.
    unfold V3.normalize. rewrite length_fmap, fmap_cons.
    cbn [sum_list_with]. unfold rows_read at 2. cbn [snd]. unfold id. lia.
  - rewrite filter_cons_False by (apply Is_true_false, Hf).
    rewrite (V3_process_file_skip _ _ _ _ Hf). apply IH.
Qed.
End v3_more.

(** X13.  The script at module level compares file names with the lines of
    the log after [strip]: every name it takes as processed is free of white
    space in front and behind, so a file whose name begins or ends with
    white space is never skipped, whatever the log holds. *)
Theorem V3_padded_name_never_skipped (w : world) (file : string) :
  strip file ≠ file → file ∉ V3.load_processed_files w.
Proof.
  intros Hpad Hin. apply Hpad. unfold V3.load_processed_files in Hin.
  apply elem_of_list_to_set, list_elem_of_fmap in Hin as (line & -> & _).
  apply strip_idemp.
Qed.

(** X14.  In the script at module level an append to the log that fails
    ends the run before anything is saved: when the log cannot be written
    and the directory holds a file to fold in, the store and the log are
    left as they were, whether or not the store could be written. *)
Theorem V3_failed_log_write_changes_nothing `{P : Pandas} (w : world)
    (listing : list (string * option src_frame)) (io : io_outcome) :
  ledger_write_ok io = false →
  (∃ entry, entry ∈ listing
            ∧ folded_V3 (V3.load_processed_files w) entry = true) →
  V3.ingest w listing io = w.
Proof.
  intros Hlog Hsome. unfold V3.ingest, V3.run_loop. rewrite Hlog.
  by rewrite (V3_foldl_raises _ _ _ Hsome).
Qed.


(** X16.  The script at module level adds every row of a file it folds in,
    also a row without a value in any mapped column: after a run that could
    write the log and the store, the store has grown by the number of rows
    of the folded files. *)
Theorem V3_ingest_record_count `{P : Pandas} {L : SortLaws P} (w : world)
    (listing : list (string * option src_frame)) (io : io_outcome) :
  ledger_write_ok io = true → store_write_ok io = true →
  length (store_rows (V3.ingest w listing io))
  = (length (store_rows w)
     + sum_list (rows_read
                   <$> filter (λ entry, folded_V3 (V3.load_processed_files w) entry)
                         listing))%nat.
Proof.
  intros Hlog Hok. unfold V3.ingest, V3.run_loop. rewrite Hlog.
  destruct (V3_foldl_length (V3.load_processed_files w) listing
              {| V3.df_dest := read_csv (store_rows w);
                 V3.processed_log := ledger_file w |})
    as (st' & -> & Hlen).
  unfold store_rows at 1. simpl. rewrite Hok. simpl.
  unfold to_csv, to_datetime_column.
  rewrite length_fmap, length_sort_values_desc, length_fmap, Hlen. simpl.
  unfold read_csv. by rewrite length_fmap.
Qed.

(** ** The two taggers of [script_V3.0.py] *)

Lemma after_last_Some sep s r :
  after_last sep s = Some r → ∃ u, s = u +:+ sep +:+ r.
Proof.
  induction s as [|a s IH]; [done|]. cbn [after_last].
  destruct (after_last sep s) as [r'|].
  - intros [= ->]. destruct (IH eq_refl) as [u ->].
    exists (String a u). by rewrite append_cons.
  - intros Hd%drop_prefix_Some. exists "". by rewrite append_nil_l.
Qed.

Lemma after_last_None c sep s :
  after_last (String c sep) s = None ↔ ¬ occurs (String c sep) s.
Proof.
  induction s as [|a s IH].
  - simpl. split; [|done]. intros _ (u & v & Heq).
    destruct u; discriminate.
  - cbn [after_last]. destruct (after_last (String c sep) s) as [r|] eqn:Hs.
    + split; [done|]. intros Hno. exfalso.
      destruct (after_last_Some _ _ _ Hs) as [u ->].
      apply Hno. exists (String a u), r. by rewrite append_cons.
    + destruct (drop_prefix (String c sep) (String a s)) as [r|] eqn:Hd.
      * split; [done|]. intros Hno. exfalso. apply Hno.
        apply drop_prefix_Some in Hd. exists "", r. by rewrite append_nil_l.
      * split; [|done]. intros _ (u & v & Heq). destruct u as [|b u].
        -- rewrite append_nil_l in Heq.
           apply drop_prefix_Some in Heq. congruence.
        -- rewrite append_cons in Heq. injection Heq as _ ->.
           apply (proj1 IH); [done|]. by exists u, v.
Qed.

Lemma after_last_app sep pre s r :
  after_last sep s = Some r → after_last sep (pre +:+ s) = Some r.
Proof.
  intros Hs. induction pre as [|a pre IH]; [done|].
  rewrite append_cons. cbn [after_last]. by rewrite IH.
Qed.

(** Behind a token without [-] the marker [-scan_] occurs only where it
    occurs in the rest. *)
Lemma occurs_behind_token g tail :
  (∀ a, a ∈ chars g → is_sep a = false) →
  ¬ occurs "-scan_" tail → ¬ occurs "-scan_" (g +:+ tail).
Proof.
  induction g as [|a g IH]; intros Hg Hno; [done|].
  intros (u & v & Heq). rewrite append_cons in Heq. destruct u as [|b u].
  - rewrite append_nil_l in Heq. injection Heq as -> _.
    by specialize (Hg "-"%char ltac:(left)).
  - rewrite append_cons in Heq. injection Heq as _ Heq.
    apply IH; [|done|by exists u, v]. intros c Hc. apply Hg. by right.
Qed.

Lemma split_last_marker pre g tail :
  (∀ a, a ∈ chars g → is_sep a = false) →
  ¬ occurs "-scan_" tail →
  split_last "-scan_" (pre +:+ "-scan_" +:+ g +:+ tail) = g +:+ tail.
Proof.
  intros Hg Hno. unfold split_last.
  rewrite (after_last_app _ pre _ (g +:+ tail)); [done|].
  pose proof (proj2 (after_last_None "-" "scan_" (g +:+ tail))
                (occurs_behind_token _ _ Hg Hno)) as Hnone.
  change ("-scan_" +:+ g +:+ tail)
    with (String "-" (String "s" (String "c" (String "a" (String "n"
            (String "_" (g +:+ tail))))))).
  cbn [after_last]. rewrite Hnone. by cbn.
Qed.

Lemma split_dash_first_token g rest :
  (∀ a, a ∈ chars g → is_sep a = false) →
  split_dash_first (g +:+ String "-" rest) = g.
Proof.
  induction g as [|a g IH]; intros Hg; [done|].
  rewrite append_cons. cbn [split_dash_first].
  pose proof (Hg a ltac:(left)) as Ha. unfold is_sep in Ha.
  apply orb_false_iff in Ha as [-> _]. rewrite IH; [done|].
  intros c Hc. apply Hg. by right.
Qed.

Lemma token_before_dash g rest :
  (∀ a, a ∈ chars g → is_sep a = false) →
  token (g +:+ String "-" rest) = g.
Proof.
  induction g as [|a g IH]; intros Hg; [done|].
  rewrite append_cons. cbn [token]. rewrite (Hg a ltac:(left)).
  rewrite IH; [done|]. intros c Hc. apply Hg. by right.
Qed.

(** The pattern does not match where a [-] comes before the marker is
    complete. *)
Lemma match_scan_at_before_dash p y :
  match_scan_at (p +:+ String "-" y) = None ∨
  ∃ c rest, p = "scan_" +:+ String c rest ∧ is_sep c = false.
Proof.
  destruct (match_scan_at (p +:+ String "-" y)) as [g|] eqn:Hm; [|by left].
  right. assert (match_scan_at (p +:+ String "-" y) ≠ None) as Hne by congruence.
  unfold match_scan_at in Hm.
  destruct (drop_prefix "scan_" (p +:+ String "-" y)) as [r|] eqn:Hd; [|done].
  destruct (token r) as [|c0 t] eqn:Ht; [done|].
  apply drop_prefix_Some in Hd.
  destruct p as [|a1 [|a2 [|a3 [|a4 [|a5 [|a6 p]]]]]];
    repeat (rewrite append_cons in Hd || rewrite append_nil_l in Hd);
    try (exfalso; congruence).
  - injection Hd as _ _ _ _ _ Hr. subst r. discriminate.
  - injection Hd as -> -> -> -> -> Hr. subst r.
    cbn [token] in Ht. destruct (is_sep a6) eqn:Ha; [done|].
    by exists a6, p.
Qed.

Lemma re_search_scan_skip pre y :
  ¬ has_marker pre →
  re_search_scan (pre +:+ String "-" y) = re_search_scan (String "-" y).
Proof.
  induction pre as [|a pre IH]; intros Hno; [done|].
  rewrite append_cons. cbn [re_search_scan]. rewrite <- append_cons.
  destruct (match_scan_at_before_dash (String a pre) y)
    as [->|(c & rest & Heq & Hc)].
  - apply IH. intros (p & c & rest & -> & Hc).
    apply Hno. exists (String a p), c, rest. by rewrite append_cons.
  - exfalso. apply Hno. exists "", c, rest. by rewrite append_nil_l.
Qed.

(** X17.  On a report name of the usual form, [...-scan_<token>-...] with
    the marker once, the tag that the script at module level cuts out with
    [split] is the label that the regular expression of the command-line
    script finds. *)
Theorem taggers_agree_on_report_names (pre g rest : string) :
  ¬ has_marker pre → g ≠ "" →
  (∀ a, a ∈ chars g → is_sep a = false) →
  ¬ occurs "-scan_" (String "-" rest) →
  V3.issue_of_file (pre +:+ "-scan_" +:+ g +:+ String "-" rest)
  = V3_tagger.extract_issue_from_filename
      (pre +:+ "-scan_" +:+ g +:+ String "-" rest)
  ∧ V3.issue_of_file (pre +:+ "-scan_" +:+ g +:+ String "-" rest)
    = clean_label g.
Proof.
  intros Hpre Hne Hg Hrest.
  assert (V3.issue_of_file (pre +:+ "-scan_" +:+ g +:+ String "-" rest)
          = clean_label g) as Hinline.
  { unfold V3.issue_of_file. rewrite (split_last_marker _ _ _ Hg Hrest).
    by rewrite (split_dash_first_token _ _ Hg). }
  split; [|done]. rewrite Hinline.
  unfold V3_tagger.extract_issue_from_filename.
  change (pre +:+ "-scan_" +:+ g +:+ String "-" rest)
    with (pre +:+ String "-" ("scan_" +:+ g +:+ String "-" rest)).
  rewrite (re_search_scan_skip _ _ Hpre). cbn [re_search_scan].
  assert (match_scan_at (String "-" ("scan_" +:+ g +:+ String "-" rest)) = None)
    as -> by done.
  rewrite (re_search_scan_at _ g); [done|].
  unfold match_scan_at.
  rewrite (proj2 (drop_prefix_Some "scan_" _ (g +:+ String "-" rest)) eq_refl).
  rewrite (token_before_dash _ _ Hg). by destruct g.
Qed.

Lemma elem_of_chars_split_dash_first a (s : string) :
  a ∈ chars (split_dash_first s) → a ≠ "-"%char.
Proof.
  induction s as [|b s IH]; simpl; [by intros ?%elem_of_nil|].
  destruct (Ascii.eqb_spec b "-"); simpl; [by intros ?%elem_of_nil|].
  intros [->|?]%elem_of_cons; auto.
Qed.

(** X18.  The tag of the script at module level is normalised whatever the
    file is called: [strip] leaves it as it is, and it has no underscore, no
    [-] and no ASCII capital. *)
Theorem issue_of_file_is_normalised (file : string) :
  strip (V3.issue_of_file file) = V3.issue_of_file file
  ∧ ∀ a, a ∈ chars (V3.issue_of_file file) →
      a ≠ "_"%char ∧ a ≠ "-"%char ∧ is_upper a = false.
Proof.
  split; [apply strip_clean_label|].
  intros a (b & Hb & ->)%elem_of_chars_clean_label.
  apply elem_of_chars_split_dash_first in Hb.
  destruct (clean_char_shape b) as (H1 & H2 & H3 & _). auto.
Qed.

(** ** The command-line script *)

Section cli.
Context `{P : Pandas}.

Lemma normalize_nil df_src issue :
  Processor.normalize df_src issue = []
  ↔ filter (λ r, Processor.has_value df_src r) (src_rows df_src) = [].
Proof.
  unfold Processor.normalize. split; [apply fmap_nil_inv|by intros ->].
Qed.

Lemma folded_usable pf entry :
  folded pf entry
  = (endswith entry.1 ".csv" || endswith entry.1 ".xlsx")
    && negb (bool_decide (entry.1 ∈ pf)) && usable entry.
Proof.
  unfold folded, usable. destruct (entry.2) as [df_src|]; [|done].
  do 3 f_equal. apply bool_decide_ext, normalize_nil.
Qed.

Lemma collect_usable acc filename df_src :
  usable (filename, Some df_src) = true →
  V3_cli.collect acc (filename, Some df_src)
  = {| V3_cli.all_new_data :=
         V3_cli.all_new_data acc
         ++ [Processor.normalize df_src
               (Str (V3_tagger.extract_issue_from_filename filename))];
       V3_cli.newly_processed_log :=
         V3_cli.newly_processed_log acc ++ [filename] |}.
Proof.
  unfold usable. simpl. rewrite andb_true_iff, !negb_true_iff.
  intros [Hcols Hrows]. unfold V3_cli.collect. rewrite Hcols.
  rewrite (bool_decide_ext _ _ (normalize_nil df_src _)). by rewrite Hrows.
Qed.

Lemma collect_not_usable acc entry :
  usable entry = false → V3_cli.collect acc entry = acc.
Proof.
  destruct entry as [filename [df_src|]]; [|done].
  unfold usable, V3_cli.collect. simpl.
  destruct (bool_decide (Processor.valid_cols df_src = [])); simpl; [done|].
  rewrite (bool_decide_ext _ _ (normalize_nil df_src _)).
  by destruct (bool_decide (filter _ _ = [])).
Qed.

Lemma usable_Some entry : usable entry = true → ∃ df_src, entry.2 = Some df_src.
Proof. unfold usable. destruct (entry.2); [eauto|done]. Qed.

Lemma foldl_collect_filter acc l :
  foldl V3_cli.collect acc (filter (λ entry, usable entry) l)
  = foldl V3_cli.collect acc l.
Proof.
  revert acc. induction l as [|entry l IH]; intros acc; [done|].
  destruct (usable entry) eqn:Hu.
  - rewrite filter_cons_True by (apply Is_true_true, Hu). simpl. apply IH.
  - rewrite filter_cons_False by (apply Is_true_false, Hu). simpl.
    rewrite (collect_not_usable _ _ Hu). apply IH.
Qed.

Lemma foldl_collect_log acc l :
  V3_cli.newly_processed_log (foldl V3_cli.collect acc l)
  = V3_cli.newly_processed_log acc ++ (fst <$> filter (λ entry, usable entry) l).
Proof.
  revert acc. induction l as [|entry l IH]; intros acc; simpl.
  { by rewrite app_nil_r. }
  rewrite IH. destruct (usable entry) eqn:Hu.
  - rewrite filter_cons_True by (apply Is_true_true, Hu).
    destruct entry as [filename contents].
    destruct (usable_Some _ Hu) as [df_src Hc]. simpl in Hc. subst.
    rewrite (collect_usable _ _ _ Hu). simpl. by rewrite <- app_assoc.
  - rewrite filter_cons_False by (apply Is_true_false, Hu).
    by rewrite (collect_not_usable _ _ Hu).
Qed.

Lemma foldl_collect_length acc l :
  length (V3_cli.all_new_data (foldl V3_cli.collect acc l))
  = (length (V3_cli.all_new_data acc)
     + length (filter (λ entry, usable entry) l))%nat.
Proof.
  revert acc. induction l as [|entry l IH]; intros acc; simpl; [lia|].
  rewrite IH. destruct (usable entry) eqn:Hu.
  - rewrite filter_cons_True by (apply Is_true_true, Hu).
    destruct entry as [filename contents].
    destruct (usable_Some _ Hu) as [df_src Hc]. simpl in Hc. subst.
    rewrite (collect_usable _ _ _ Hu). simpl. rewrite length_app. simpl. lia.
  - rewrite filter_cons_False by (apply Is_true_false, Hu).
    by rewrite (collect_not_usable _ _ Hu).
Qed.

Lemma foldl_collect_rows acc l :
  length (concat (V3_cli.all_new_data (foldl V3_cli.collect acc l)))
  = (length (concat (V3_cli.all_new_data acc))
     + sum_list (rows_admitted <$> filter (λ entry, usable entry) l))%nat.
Proof.
  revert acc. induction l as [|entry l IH]; intros acc; simpl; [lia|].
  rewrite IH. destruct (usable entry) eqn:Hu.
  - rewrite filter_cons_True by (apply Is_true_true, Hu).
    destruct entry as [filename contents].
    destruct (usable_Some _ Hu) as [df_src Hc]. simpl in Hc. subst.
    rewrite (collect_usable _ _ _ Hu). cbn [V3_cli.all_new_data].
    rewrite concat_app, length_app. cbn [concat]. rewrite app_nil_r.
    rewrite length_normalize, fmap_cons. cbn [sum_list_with].
    unfold rows_admitted at 2. cbn [snd]. unfold id. lia.
  - rewrite filter_cons_False by (apply Is_true_false, Hu).
    by rewrite (collect_not_usable _ _ Hu).
Qed.

(** Every row that process mode collects has the 0 of line 229. *)
Lemma foldl_collect_zero acc l :
  (∀ temp r, temp ∈ V3_cli.all_new_data acc → r ∈ temp →
             Recurring_Issue r = Int 0) →
  ∀ temp r, temp ∈ V3_cli.all_new_data (foldl V3_cli.collect acc l) →
            r ∈ temp → Recurring_Issue r = Int 0.
Proof.
  revert acc. induction l as [|entry l IH]; intros acc Hacc; [done|].
  simpl. apply IH. destruct (usable entry) eqn:Hu.
  - destruct entry as [filename contents].
    destruct (usable_Some _ Hu) as [df_src Hc]. simpl in Hc. subst.
    rewrite (collect_usable _ _ _ Hu). cbn [V3_cli.all_new_data].
    intros temp r [Ht|Ht%list_elem_of_singleton]%elem_of_app Hr.
    + by eapply Hacc.
    + subst temp. by eapply normalize_Recurring_Issue.
  - by rewrite (collect_not_usable _ _ Hu).
Qed.

Lemma filter_usable_files_to_process w listing :
  filter (λ entry, usable entry) (V3_cli.files_to_process w listing)
  = filter (λ entry, folded (Processor.load_processed_files w) entry) listing.
Proof.
  unfold V3_cli.files_to_process. rewrite !list_filter_filter.
  apply list_filter_iff. intros entry. rewrite folded_usable.
  rewrite !Is_true_true, !andb_true_iff, negb_true_iff, bool_decide_eq_false.
  tauto.
Qed.

Lemma cli_main_nothing m w listing io :
  filter (λ entry, folded (Processor.load_processed_files w) entry) listing = [] →
  V3_cli.main m w listing io = w.
Proof.
  intros Hnone. unfold V3_cli.main. case_bool_decide; [done|].
  destruct m; [done|]. unfold V3_cli.run_process_mode.
  rewrite <- foldl_collect_filter, filter_usable_files_to_process, Hnone.
  done.
Qed.

Lemma cli_main_something w listing io :
  filter (λ entry, folded (Processor.load_processed_files w) entry) listing ≠ [] →
  V3_cli.main process w listing io
  = let new_files :=
      filter (λ entry, folded (Processor.load_processed_files w) entry) listing in
    let acc :=
      foldl V3_cli.collect
        {| V3_cli.all_new_data := []; V3_cli.newly_processed_log := [] |}
        new_files in
    let df_dest := coerce_recurring_column (Processor.load_destination w) in
    {| store_file :=
         if store_write_ok io
         then Some (to_csv (sort_values_desc (to_datetime_column
                ((Processor.resolve_row df_dest
                    <$> concat (V3_cli.all_new_data acc)) ++ df_dest))))
         else store_file w;
       ledger_file :=
         if ledger_write_ok io
         then Some (ledger_lines w ++ (fst <$> new_files))
         else ledger_file w |}.
Proof.
  intros Hsome. unfold V3_cli.main.
  rewrite <- filter_usable_files_to_process in Hsome |- *.
  case_bool_decide as Hftp; [by rewrite Hftp in Hsome|].
  unfold V3_cli.run_process_mode.
  rewrite <- (foldl_collect_filter _ (V3_cli.files_to_process w listing)).
  assert (filter (λ entry, usable entry)
            (filter (λ entry, usable entry) (V3_cli.files_to_process w listing))
          = filter (λ entry, usable entry) (V3_cli.files_to_process w listing))
    as Hidem.
  { rewrite list_filter_filter. apply list_filter_iff. intros entry. tauto. }
  set (new_files := filter _ (V3_cli.files_to_process w listing)) in *.
  set (acc := foldl V3_cli.collect _ new_files).
  assert (V3_cli.all_new_data acc ≠ []) as Hdata.
  { intros Hnil. apply (f_equal length) in Hnil. unfold acc in Hnil.
    rewrite foldl_collect_length, Hidem in Hnil. simpl in Hnil.
    by apply Hsome, length_zero_iff_nil. }
  rewrite bool_decide_eq_false_2 by done. cbn zeta.
  assert (V3_cli.newly_processed_log acc = fst <$> new_files) as Hlog.
  { unfold acc. rewrite foldl_collect_log, Hidem. done. }
  rewrite Hlog. by destruct new_files.
Qed.
End cli.

Lemma elem_of_concat {A} (x : A) (ls : list (list A)) :
  x ∈ concat ls ↔ ∃ l, l ∈ ls ∧ x ∈ l.
Proof.
  induction ls as [|l ls IH]; simpl.
  - split; [by intros ?%elem_of_nil|]. by intros (l & ?%elem_of_nil & _).
  - rewrite elem_of_app, IH. split.
    + intros [?|(l' & ? & ?)]; [exists l; split; [left|done]|].
      exists l'. split; [by right|done].
    + intros (l' & [->|?]%elem_of_cons & ?); [by left|right; by exists l'].
Qed.

Lemma filter_folded_nil pf (listing : list (string * option src_frame)) :
  (∀ entry, entry ∈ listing → folded pf entry = false) →
  filter (λ entry, folded pf entry) listing = [].
Proof.
  induction listing as [|entry listing IH]; intros H; [done|].
  rewrite filter_cons_False by (apply Is_true_false, H; left).
  apply IH. intros e He. apply H. by right.
Qed.


Lemma filter_usable_folded pf (listing : list (string * option src_frame)) :
  filter (λ entry, usable entry) (filter (λ entry, folded pf entry) listing)
  = filter (λ entry, folded pf entry) listing.
Proof.
  rewrite list_filter_filter. apply list_filter_iff. intros entry.
  rewrite folded_usable, !Is_true_true, !andb_true_iff. tauto.
Qed.

Lemma issue_cell_marker filename :
  has_marker filename →
  Processor.issue_cell filename
  = Str (V3_tagger.extract_issue_from_filename filename).
Proof.
  intros Hm. unfold Processor.issue_cell,
    Processor_tagger.extract_issue_from_filename,
    V3_tagger.extract_issue_from_filename.
  destruct (re_search_scan filename) eqn:Hs; [done|].
  by apply re_search_scan_None in Hs.
Qed.

Lemma valid_cols_no_columns df_src :
  src_columns df_src = [] → Processor.valid_cols df_src = [].
Proof.
  intros Hc. unfold Processor.valid_cols. rewrite Hc.
  generalize (Processor.column_map.*1). intros l.
  induction l as [|x l IH]; [done|].
  rewrite filter_cons_False; [done|]. by intros ?%elem_of_nil.
Qed.

Lemma discover_counts_usable (files : list (string * option src_frame)) :
  (sum_list (rows_admitted <$> filter (λ entry, usable entry) files)
   ≤ V3_cli.total_new_rows (V3_cli.run_discover_mode files))%nat.
Proof.
  unfold V3_cli.run_discover_mode.
  generalize ({| V3_cli.total_new_rows := 0; V3_cli.files_with_issues := 0 |}).
  assert (∀ acc,
    (V3_cli.total_new_rows acc
     + sum_list (rows_admitted <$> filter (λ entry, usable entry) files)
     ≤ V3_cli.total_new_rows
         (foldl (λ acc entry,
                   match entry.2 with
                   | Some df_src =>
                       if bool_decide (src_columns df_src = [] ∨ src_rows df_src = [])
                       then {| V3_cli.total_new_rows := V3_cli.total_new_rows acc;
                               V3_cli.files_with_issues :=
                                 S (V3_cli.files_with_issues acc) |}
                       else {| V3_cli.total_new_rows :=
                                 (V3_cli.total_new_rows acc
                                  + length (src_rows df_src))%nat;
                               V3_cli.files_with_issues :=
                                 V3_cli.files_with_issues acc |}
                   | None =>
                       {| V3_cli.total_new_rows := V3_cli.total_new_rows acc;
                          V3_cli.files_with_issues :=
                            S (V3_cli.files_with_issues acc) |}
                   end) acc files))%nat) as Hgen.
  { induction files as [|entry files IH]; intros acc; simpl; [lia|].
    etrans; [|apply IH].
    destruct (usable entry) eqn:Hu.
    - rewrite filter_cons_True by (apply Is_true_true, Hu).
      rewrite fmap_cons. cbn [sum_list_with]. unfold id.
      unfold usable in Hu. unfold rows_admitted at 1.
      destruct (entry.2) as [df_src|]; [|done].
      apply andb_true_iff in Hu as [Hcols Hrows].
      apply negb_true_iff, bool_decide_eq_false in Hcols, Hrows.
      rewrite bool_decide_eq_false_2.
      + simpl. pose proof (length_filter (λ r, Processor.has_value df_src r)
                             (src_rows df_src)). lia.
      + intros [Hc|Hr].
        * by apply Hcols, valid_cols_no_columns.
        * apply Hrows. by rewrite Hr.
    - rewrite filter_cons_False by (apply Is_true_false, Hu).
      destruct (entry.2) as [df_src|]; [|simpl; lia].
      case_bool_decide; simpl; lia. }
  intros acc. specialize (Hgen acc). lia.
Qed.


(** X20.  When no file of the directory yields a row, the command-line
    script returns before it writes: in either mode the store and the log
    are left as they are.  (The processor rewrites the store in this case.) *)
Theorem cli_without_new_data `{P : Pandas} (m : mode) (w : world)
    (listing : list (string * option src_frame)) (io : io_outcome) :
  (∀ entry, entry ∈ listing →
            folded (Processor.load_processed_files w) entry = false) →
  V3_cli.main m w listing io = w.
Proof. intros Hskip. by apply cli_main_nothing, filter_folded_nil. Qed.

(** X21.  With one new file to fold in, and a marker in its name, process
    mode of the command-line script does what the processor does: the same
    store and the same log. *)
Theorem cli_agrees_with_processor `{P : Pandas} (w : world)
    (listing : list (string * option src_frame))
    (entry : string * option src_frame) (io : io_outcome) :
  filter (λ e, folded (Processor.load_processed_files w) e) listing = [entry] →
  has_marker entry.1 →
  V3_cli.main process w listing io = Processor.ingest w listing io.
Proof.
  intros Hone Hmarker.
  assert (folded (Processor.load_processed_files w) entry = true) as Hf.
  { apply Is_true_true.
    eapply (proj1 (list_elem_of_filter
                     (λ e, folded (Processor.load_processed_files w) e) listing entry)).
    rewrite Hone. left. }
  assert (usable entry = true) as Hu.
  { rewrite folded_usable, !andb_true_iff in Hf. tauto. }
  rewrite cli_main_something by (by rewrite Hone). cbn zeta. rewrite Hone.
  unfold Processor.ingest, Processor.final_frame.
  rewrite <- run_loop_filter_folded, Hone. unfold Processor.run_loop.
  destruct entry as [filename contents].
  destruct (folded_Some _ _ Hf) as [df_src Hc]. simpl in Hc. subst.
  cbn [foldl]. rewrite (process_file_folded _ _ _ _ Hf).
  rewrite (collect_usable _ _ _ Hu). simpl.
  simpl in Hmarker. by rewrite app_nil_r, (issue_cell_marker _ Hmarker).
Qed.

(** X22.  Process mode resolves the rows of all new files against the store
    as it was loaded, never against each other: into an empty store a run
    writes Recurring Issue 0 on every record, however many files it reads
    and however often they hold the same finding. *)
Theorem cli_first_run_counts_nothing `{P : Pandas} {L : SortLaws P} (w : world)
    (listing : list (string * option src_frame)) (io : io_outcome) :
  store_rows w = [] →
  ∀ r, r ∈ store_rows (V3_cli.main process w listing io) →
       Recurring_Issue r = render_int 0.
Proof.
  intros Hempty r.
  destruct (filter (λ entry, folded (Processor.load_processed_files w) entry)
              listing) as [|e l] eqn:Hnew.
  { rewrite (cli_main_nothing _ w listing _ Hnew), Hempty.
    by intros ?%elem_of_nil. }
  rewrite cli_main_something by (by rewrite Hnew). cbn zeta.
  unfold store_rows at 1. simpl.
  destruct (store_write_ok io); simpl;
    [|fold (store_rows w); rewrite Hempty; by intros ?%elem_of_nil].
  unfold to_csv. intros (x & -> & Hx)%list_elem_of_fmap.
  apply (proj1 (elem_of_sort_values_desc _ _)) in Hx.
  apply list_elem_of_fmap in Hx as (y & -> & Hy).
  unfold Processor.load_destination in Hy. rewrite Hempty in Hy.
  cbn in Hy. rewrite app_nil_r in Hy.
  apply list_elem_of_fmap in Hy as (z & -> & Hz).
  rewrite resolve_row_empty.
  change (to_csv_cell (Recurring_Issue z) = render_int 0).
  apply elem_of_concat in Hz as (temp & Htemp & Hz).
  rewrite (foldl_collect_zero
             {| V3_cli.all_new_data := []; V3_cli.newly_processed_log := [] |}
             _ ltac:(by intros ? ? ?%elem_of_nil) _ _ Htemp Hz).
  done.
Qed.

(** X23.  Discover mode does not promise too little: the number of
    potential new records it reports for the new files is at least the
    number of records that process mode adds to the store for them. *)
Theorem discover_bounds_process `{P : Pandas} {L : SortLaws P} (w : world)
    (listing : list (string * option src_frame)) (io : io_outcome) :
  (length (store_rows (V3_cli.main process w listing io))
   ≤ length (store_rows w)
     + V3_cli.total_new_rows
         (V3_cli.run_discover_mode (V3_cli.files_to_process w listing)))%nat.
Proof.
  destruct (filter (λ entry, folded (Processor.load_processed_files w) entry)
              listing) as [|e l] eqn:Hnew.
  { rewrite (cli_main_nothing _ w listing _ Hnew). lia. }
  rewrite cli_main_something by (by rewrite Hnew). cbn zeta.
  unfold store_rows at 1. simpl.
  destruct (store_write_ok io); simpl; [|fold (store_rows w); lia].
  unfold to_csv, to_datetime_column.
  rewrite length_fmap, length_sort_values_desc, length_fmap, length_app,
    length_fmap, length_coerce_recurring_column.
  rewrite foldl_collect_rows, filter_usable_folded. simpl.
  rewrite <- filter_usable_files_to_process.
  pose proof (discover_counts_usable (V3_cli.files_to_process w listing)).
  unfold Processor.load_destination, read_csv. rewrite !length_fmap. lia.
Qed.

(** ** More on compaction *)

Section compaction_more.
Context `{P : Pandas}.




Lemma length_keys_of df :
  length (keys_of df) = length (remove_dups (Dedup.group_key <$> df)).
Proof.
  unfold keys_of. rewrite length_sort_stable.
  apply Permutation_length, NoDup_Permutation; try apply NoDup_remove_dups.
  intros k. rewrite !elem_of_remove_dups, !list_elem_of_fmap.
  by setoid_rewrite elem_of_df_sorted.
Qed.

Lemma length_keys_of_le df : (length (keys_of df) ≤ length df)%nat.
Proof.
  rewrite <- (length_fmap Dedup.group_key df). apply submseteq_length.
  apply NoDup_submseteq; [apply NoDup_keys_of|].
  intros k (r & Hr & <-)%elem_of_keys_of. apply list_elem_of_fmap. eauto.
Qed.

Lemma length_prepare_le f : (length (Dedup.prepare f) ≤ length f)%nat.
Proof.
  unfold Dedup.prepare. etrans; [apply length_filter|].
  unfold coerce_recurring_column, to_datetime_column, read_csv.
  by rewrite !length_fmap.
Qed.
End compaction_more.


(** X25.  The numbers of the report of a run that writes: at least one
    record is saved, as many as there are distinct five-field keys among the
    records that pass the filter and never more than the file held; the
    number of removed records is not negative and is less than the number of
    records of the file. *)
Theorem report_counts `{P : Pandas} {L : SortLaws P} (f : csv)
    (rep : Dedup.report) :
  Dedup.deduplicate_and_update (Some f) true = Some rep →
  Dedup.saved rep
  = length (remove_dups (Dedup.group_key <$> Dedup.prepare f))
  ∧ (1 ≤ Dedup.saved rep ≤ length f)%nat
  ∧ 0 ≤ Dedup.removed rep < Z.of_nat (length f).
Proof.
  intros (_ & Hrem & Hsaved & Hne)%deduplicate_and_update_Some.
  assert (length (compacted f) = length (keys_of (Dedup.prepare f))) as Hlen.
  { unfold compacted. by rewrite length_sort_values_desc, length_final_records. }
  assert (length (keys_of (Dedup.prepare f)) ≠ 0%nat) as Hpos.
  { rewrite <- length_final_records. intros H0. by apply Hne, length_zero_iff_nil. }
  pose proof (length_keys_of_le (Dedup.prepare f)).
  pose proof (length_prepare_le f).
  rewrite Hsaved, Hrem, Hlen. split; [apply length_keys_of|]. lia.
Qed.

(** X26.  A store whose keyable records all have different keys is only
    filtered and sorted: compaction writes exactly the records that pass the
    filter, each with the Recurring Issue it had, and reports none removed. *)
Theorem compaction_without_duplicates `{P : Pandas} {L : SortLaws P} (f : csv) :
  NoDup (Dedup.group_key <$> Dedup.prepare f) →
  compacted f ≡ₚ Dedup.prepare f
  ∧ ∀ rep, Dedup.deduplicate_and_update (Some f) true = Some rep →
           Dedup.written rep ≡ₚ to_csv (Dedup.prepare f)
           ∧ Dedup.removed rep = 0.
Proof.
  intros Hnodup.
  assert (∀ t, t ∈ Dedup.final_records (Dedup.prepare f) → t ∈ Dedup.prepare f)
    as Hsub.
  { intros t (latest & Hin & Hk & _ & ->)%final_records_kept.
    assert (latest ∈ Dedup.prepare f) as Hl by (by apply prepare_keyable).
    destruct (prepare_cells _ _ Hl) as (_ & [n Hn] & _).
    assert (length (filter (λ r, same_group r latest) (Dedup.prepare f)) = 1%nat)
      as ->; [|by rewrite (kept_record_one _ _ Hn)].
    assert (filter (λ r, same_group r latest) (Dedup.prepare f)
            = filter (λ r, Dedup.group_key r = Dedup.group_key latest)
                (Dedup.prepare f)) as ->.
    { apply filter_ext_elem_of. intros r Hr. symmetry.
      exact (prepare_same_group f r latest Hr Hl). }
    pose proof (length_filter_NoDup_fmap Dedup.group_key (Dedup.prepare f)
                  (Dedup.group_key latest) Hnodup) as Hle.
    assert (latest ∈ filter (λ r, Dedup.group_key r = Dedup.group_key latest)
                       (Dedup.prepare f)) as Hmem
      by (by apply list_elem_of_filter).
    destruct (filter _ (Dedup.prepare f)) as [|x [|y l]]; simpl in *;
      [by apply elem_of_nil in Hmem|done|lia]. }
  assert (compacted f ≡ₚ Dedup.prepare f) as Hperm.
  { unfold compacted. rewrite sort_values_desc_Permutation.
    apply NoDup_Permutation.
    - eapply NoDup_fmap_1, NoDup_final_keys.
    - by eapply NoDup_fmap_1.
    - intros r. split; [apply Hsub|]. intros Hr.
      destruct (final_records_covers _ _ Hr) as (t & Ht & Hsame).
      assert (t = r) as <-; [|done].
      eapply (NoDup_fmap_eq Dedup.group_key); eauto.
      by apply same_group_group_key. }
  split; [done|].
  intros rep (Hw & Hrem & _)%deduplicate_and_update_Some.
  rewrite Hw, Hrem. split.
  - unfold to_csv. by apply fmap_Permutation.
  - apply Permutation_length in Hperm. lia.
Qed.

(** ** The further theorems at the examples *)

Lemma label_is_normalised_witness :
  Processor_tagger.extract_issue_from_filename "2024-01-01-scan_SSL_Weak-geo.csv"
  = Some "ssl weak"
  ∧ V3_tagger.extract_issue_from_filename "2024-01-01-scan_SSL_Weak-geo.csv"
    = "ssl weak"
  ∧ normalised "ssl weak".
Proof.
  split; [reflexivity|].
  apply (label_is_normalised "2024-01-01-scan_SSL_Weak-geo.csv" "ssl weak").
  reflexivity.
Defined.

Lemma ingest_record_count_witness :
  store_write_ok io_ok = true
  ∧ length (store_rows (Processor.ingest (P:=pandas_stable) after_first_run
                          two_scans io_ok))
    = (length (store_rows after_first_run)
       + sum_list (rows_admitted
                     <$> filter (λ entry,
                                   folded (Processor.load_processed_files
                                             after_first_run) entry)
                           two_scans))%nat.
Proof.
  split; [reflexivity|].
  apply (ingest_record_count (P:=pandas_stable) (L:=stable_sort_laws)
           after_first_run two_scans io_ok).
  reflexivity.
Defined.


Lemma failed_log_write_folds_again_witness :
  ledger_write_ok io_log_fails = false
  ∧ length (store_rows
              (Processor.ingest (P:=pandas_stable)
                 (Processor.ingest (P:=pandas_stable) empty_world two_scans
                    io_log_fails)
                 two_scans io_ok))
    = (length (store_rows empty_world)
       + 2 * sum_list (rows_admitted
                         <$> filter (λ entry,
                                       folded (Processor.load_processed_files
                                                 empty_world) entry)
                               two_scans))%nat.
Proof.
  split; [reflexivity|].
  exact (proj2 (proj2
    (failed_log_write_folds_again (P:=pandas_stable) (L:=stable_sort_laws)
       empty_world two_scans io_log_fails io_ok eq_refl eq_refl eq_refl))).
Defined.

Lemma run_without_new_file_witness :
  ledger_file (Processor.ingest (P:=pandas_stable) after_first_run ssl_listing
                 io_ok)
  = ledger_file after_first_run
  ∧ store_rows (Processor.ingest (P:=pandas_stable) after_first_run ssl_listing
                  io_ok)
    ≡ₚ rewritten (P:=pandas_stable) <$> store_rows after_first_run.
Proof.
  apply (run_without_new_file (P:=pandas_stable) (L:=stable_sort_laws)
           after_first_run ssl_listing io_ok).
  - unfold ssl_listing. intros entry Hin.
    apply list_elem_of_singleton in Hin. subst entry. vm_compute. reflexivity.
  - reflexivity.
Defined.

Lemma written_fields_canonical_witness :
  store_write_ok io_ok = true
  ∧ ∀ r, r ∈ store_rows (Processor.ingest (P:=pandas_stable) empty_world
                           two_scans io_ok) →
      (Timestamp r = ""
       ∨ ∃ s t, timestamp_parse s = Some t ∧ Timestamp r = timestamp_text t)
      ∧ (filter (λ entry, folded (Processor.load_processed_files empty_world)
                            entry) two_scans ≠ [] →
         ∃ n, Recurring_Issue r = decimal_text n).
Proof.
  split; [reflexivity|].
  apply (written_fields_canonical (P:=pandas_stable) (L:=stable_sort_laws)
           empty_world two_scans io_ok).
  reflexivity.
Defined.

Lemma first_file_counts_nothing_witness :
  store_rows empty_world = []
  ∧ ∀ r, r ∈ store_rows after_first_run → Recurring_Issue r = decimal_text 0.
Proof.
  split; [reflexivity|].
  apply (first_file_counts_nothing (P:=pandas_stable) (L:=stable_sort_laws)
           empty_world ssl_listing
           ("2024-01-01-scan_ssl_weak.csv", Some (scan_at "2024-01-01 00:00:00"))
           io_ok).
  - reflexivity.
  - vm_compute. reflexivity.
  - reflexivity.
Defined.


Lemma V3_padded_name_never_skipped_witness :
  strip " scan.csv" ≠ " scan.csv"
  ∧ " scan.csv" ∉ V3.load_processed_files padded_log.
Proof.
  assert (strip " scan.csv" ≠ " scan.csv") as Hpad by (vm_compute; discriminate).
  split; [exact Hpad|].
  exact (V3_padded_name_never_skipped padded_log " scan.csv" Hpad).
Defined.

Lemma V3_failed_log_write_changes_nothing_witness :
  ledger_write_ok io_log_fails = false
  ∧ V3.ingest (P:=pandas_stable) empty_world ssl_listing io_log_fails
    = empty_world.
Proof.
  split; [reflexivity|].
  apply (V3_failed_log_write_changes_nothing (P:=pandas_stable) empty_world
           ssl_listing io_log_fails).
  - reflexivity.
  - eexists. split; [apply list_elem_of_here|]. vm_compute. reflexivity.
Defined.


Lemma taggers_agree_on_report_names_witness :
  V3.issue_of_file "2024-01-01-scan_ssl_weak-geo.csv"
  = V3_tagger.extract_issue_from_filename "2024-01-01-scan_ssl_weak-geo.csv"
  ∧ V3.issue_of_file "2024-01-01-scan_ssl_weak-geo.csv" = clean_label "ssl_weak".
Proof.
  apply (taggers_agree_on_report_names "2024-01-01" "ssl_weak" "geo.csv").
  - apply re_search_scan_None. reflexivity.
  - discriminate.
  - intros a Ha. vm_compute in Ha.
    repeat (apply elem_of_cons in Ha as [->|Ha]; [reflexivity|]).
    by apply elem_of_nil in Ha.
  - apply after_last_None. reflexivity.
Defined.


Lemma cli_without_new_data_witness :
  V3_cli.main (P:=pandas_stable) process after_first_run ssl_listing io_ok
  = after_first_run.
Proof.
  apply (cli_without_new_data (P:=pandas_stable) process after_first_run
           ssl_listing io_ok).
  unfold ssl_listing. intros entry Hin.
  apply list_elem_of_singleton in Hin. subst entry. vm_compute. reflexivity.
Defined.

Lemma cli_agrees_with_processor_witness :
  has_marker "2024-01-01-scan_ssl_weak.csv"
  ∧ V3_cli.main (P:=pandas_stable) process empty_world ssl_listing io_ok
    = Processor.ingest (P:=pandas_stable) empty_world ssl_listing io_ok.
Proof.
  assert (has_marker "2024-01-01-scan_ssl_weak.csv") as Hm.
  { exists "2024-01-01-", "s"%char, "sl_weak.csv". split; reflexivity. }
  split; [exact Hm|].
  apply (cli_agrees_with_processor (P:=pandas_stable) empty_world ssl_listing
           ("2024-01-01-scan_ssl_weak.csv", Some (scan_at "2024-01-01 00:00:00"))
           io_ok).
  - vm_compute. reflexivity.
  - exact Hm.
Defined.

Lemma cli_first_run_counts_nothing_witness :
  store_rows empty_world = []
  ∧ ∀ r, r ∈ store_rows (V3_cli.main (P:=pandas_stable) process empty_world
                           two_scans io_ok) →
         Recurring_Issue r = decimal_text 0.
Proof.
  split; [reflexivity|].
  apply (cli_first_run_counts_nothing (P:=pandas_stable) (L:=stable_sort_laws)
           empty_world two_scans io_ok).
  reflexivity.
Defined.

Lemma discover_bounds_process_witness :
  SortLaws pandas_stable
  ∧ (length (store_rows (V3_cli.main (P:=pandas_stable) process empty_world
                           two_scans io_ok))
     ≤ length (store_rows empty_world)
       + V3_cli.total_new_rows
           (V3_cli.run_discover_mode
              (V3_cli.files_to_process empty_world two_scans)))%nat.
Proof.
  split; [exact stable_sort_laws|].
  exact (discover_bounds_process (P:=pandas_stable) (L:=stable_sort_laws)
           empty_world two_scans io_ok).
Defined.

Lemma report_counts_witness :
  ∃ rep,
    Dedup.deduplicate_and_update (P:=pandas_stable)
      (Some store_with_unkeyable) true = Some rep
    ∧ Dedup.saved rep
      = length (remove_dups
                  (Dedup.group_key
                     <$> Dedup.prepare (P:=pandas_stable) store_with_unkeyable))
    ∧ (1 ≤ Dedup.saved rep ≤ length store_with_unkeyable)%nat
    ∧ 0 ≤ Dedup.removed rep < Z.of_nat (length store_with_unkeyable).
Proof.
  eexists. split; [vm_compute; reflexivity|].
  eapply (report_counts (P:=pandas_stable) (L:=stable_sort_laws)).
  vm_compute. reflexivity.
Defined.

Lemma compaction_without_duplicates_witness :
  NoDup (Dedup.group_key
           <$> Dedup.prepare (P:=pandas_stable) (store_rows tied_world))
  ∧ compacted (P:=pandas_stable) (store_rows tied_world)
    ≡ₚ Dedup.prepare (P:=pandas_stable) (store_rows tied_world).
Proof.
  assert (NoDup (Dedup.group_key
                   <$> Dedup.prepare (P:=pandas_stable) (store_rows tied_world)))
    as Hnodup.
  { apply (proj1 (bool_decide_eq_true _)). vm_compute. reflexivity. }
  split; [exact Hnodup|].
  exact (proj1 (compaction_without_duplicates (P:=pandas_stable)
                  (L:=stable_sort_laws) (store_rows tied_world) Hnodup)).
Defined.

Lemma stored_records_survive_witness :
  store_write_ok io_ok = true
  ∧ ∃ added olds,
      store_rows (Processor.ingest (P:=pandas_stable) after_first_run two_scans
                    io_ok)
      ≡ₚ added ++ olds
      ∧ Forall2 (λ r0 r, set_Recurring_Issue "" r
                         = set_Recurring_Issue "" (rewritten (P:=pandas_stable) r0))
          (store_rows after_first_run) olds.
Proof.
  split; [reflexivity|].
  apply (stored_records_survive (P:=pandas_stable) (L:=stable_sort_laws)
           after_first_run two_scans io_ok).
  reflexivity.
Defined.

Lemma V3_ingest_record_count_witness :
  ledger_write_ok io_ok = true ∧ store_write_ok io_ok = true
  ∧ length (store_rows (V3.ingest (P:=pandas_stable) empty_world two_scans io_ok))
    = (length (store_rows empty_world)
       + sum_list (rows_read
                     <$> filter (λ entry,
                                   folded_V3 (V3.load_processed_files empty_world)
                                     entry)
                           two_scans))%nat.
Proof.
  split; [reflexivity|]. split; [reflexivity|].
  apply (V3_ingest_record_count (P:=pandas_stable) (L:=stable_sort_laws)
           empty_world two_scans io_ok); reflexivity.
Defined.
